(** * Dataset orchestration core of the annotation engine

    A shallow embedding of [sm/engine/dataset.py], [sm/engine/dataset_manager.py]
    and [sm/engine/mol_db.py], and the properties of the configuration
    classifier, the queued dispatcher, the zoom normalisation and the
    theoretical-peak table that the specification states about them.

    Python values are modelled by [pyval]; exceptions by [exn]; a call that
    may raise returns a [result].  Code that mutates objects is written in
    state-passing style and keeps the state it had reached when it raises. *)

From stdpp Require Import gmap strings list fin_maps sorting.
From Stdlib Require Import ZArith Floats.

Local Open Scope Z_scope.

(** ** Python values *)

(** The JSON fragment of Python values: what a dataset's [config] and
    [metadata] documents are made of.  A number is a [bool], an [int] of
    any size or a [float] (an IEEE binary64); a dict has string keys and no
    key order.  The equality of Rocq on [pyval] tells two values apart that
    Python's [==] identifies ([1], [True] and [1.0]); [py_eq] below is
    Python's [==]. *)
#[warnings="-register-all"]
Inductive pyval :=
  | VNone
  | VBool (b : bool)
  | VInt (z : Z)
  | VFloat (f : float)
  | VStr (s : string)
  | VList (l : list pyval)
  | VDict (d : gmap string pyval).

(** Two doubles are the same value of Rocq when they have the same bits
    (up to the payload of a NaN). *)
Global Instance float_eq_dec : EqDecision float.
Proof.
  intros x y. destruct (PrimFloat.Leibniz.eqb x y) eqn:E.
  - left. by apply FloatAxioms.Leibniz.eqb_spec.
  - right. intros Heq. apply FloatAxioms.Leibniz.eqb_spec in Heq. congruence.
Defined.

Global Instance pyval_eq_dec : EqDecision pyval.
Proof.
  refine (fix go (x y : pyval) {struct x} : Decision (x = y) :=
    let _ : EqDecision pyval := @go in
    match x, y with
    | VNone, VNone => left _
    | VBool a, VBool b => cast_if (decide (a = b))
    | VInt a, VInt b => cast_if (decide (a = b))
    | VFloat a, VFloat b => cast_if (decide (a = b))
    | VStr a, VStr b => cast_if (decide (a = b))
    | VList a, VList b => cast_if (decide (a = b))
    | VDict a, VDict b => cast_if (decide (a = b))
    | _, _ => right _
    end); abstract congruence.
Defined.

Global Instance pyval_inhabited : Inhabited pyval := populate VNone.

(** A dict object: the keys of a config, of a queue message, of [**kwargs]. *)
Abbreviation pydict := (gmap string pyval).

(** [bool(v)]: the truth value Python gives [v] in [if v], [v and w],
    [assert v]. *)
Definition truthy (v : pyval) : bool :=
  match v with
  | VNone => false
  | VBool b => b
  | VInt z => negb (z =? 0)
  | VFloat f => negb (PrimFloat.eqb f 0)
  | VStr s => negb (bool_decide (s = ""))
  | VList l => negb (bool_decide (l = []))
  | VDict d => negb (bool_decide (d = ∅))
  end.

(** [hash(v)] is defined: lists and dicts are unhashable. *)
Definition hashable (v : pyval) : bool :=
  match v with
  | VList _ | VDict _ => false
  | _ => true
  end.

(** ** Python's [==]

    Numbers are compared by value across [bool], [int] and [float]: a
    [bool] is the integer 0 or 1, two floats are compared as IEEE doubles
    (a NaN equals nothing, the two zeros are equal), and an integer and a
    float are compared exactly, without rounding the integer.  Strings are
    equal to strings, [None] to [None], lists to lists of the same length
    with equal items, dicts to dicts with the same keys and equal values;
    values of different kinds are unequal.

    CPython compares the items of lists, tuples and dicts by identity
    first: an object equals itself even when it is a NaN.  [py_eq] compares
    two values that share no object; on values without NaN ([nan_free]) the
    shortcut changes nothing. *)

Inductive number :=
  | NInt (z : Z)
  | NFloat (f : float).

Definition py_number (v : pyval) : option number :=
  match v with
  | VBool b => Some (NInt (Z.b2z b))
  | VInt z => Some (NInt z)
  | VFloat f => Some (NFloat f)
  | _ => None
  end.

(** [z == f] for an integer and a float: [f] is the finite double
    [±m * 2^e] and that number is [z]. *)
Definition int_eq_float (z : Z) (f : float) : bool :=
  match Prim2SF f with
  | S754_zero _ => z =? 0
  | S754_finite s m e =>
      let a := if s then Z.neg m else Z.pos m in
      if 0 <=? e then z =? a * 2 ^ e else z * 2 ^ (- e) =? a
  | S754_infinity _ | S754_nan => false
  end.

Definition number_eq (a b : number) : bool :=
  match a, b with
  | NInt x, NInt y => x =? y
  | NFloat f, NFloat g => PrimFloat.eqb f g
  | NInt z, NFloat f | NFloat f, NInt z => int_eq_float z f
  end.

(** [x == y] *)
Fixpoint py_eq (x y : pyval) {struct x} : bool :=
  match x, y with
  | VNone, VNone => true
  | VStr a, VStr b => bool_decide (a = b)
  | VList a, VList b =>
      (fix go (a b : list pyval) {struct a} : bool :=
         match a, b with
         | [], [] => true
         | v :: a', w :: b' => py_eq v w && go a' b'
         | _, _ => false
         end) a b
  | VDict a, VDict b =>
      (size a =? size b)%nat
      && map_fold (λ k v acc,
                     acc && match b !! k with Some w => py_eq v w | None => false end)
           true a
  | (VBool _ | VInt _ | VFloat _), (VBool _ | VInt _ | VFloat _) =>
      match py_number x, py_number y with
      | Some a, Some b => number_eq a b
      | _, _ => false
      end
  | _, _ => false
  end.

(** [a == b] on the contents of two dicts. *)
Definition dict_eq (a b : gmap string pyval) : bool := py_eq (VDict a) (VDict b).

(** No NaN anywhere in the value: what a JSON document holds. *)
Fixpoint nan_free (v : pyval) : bool :=
  match v with
  | VFloat f => negb (PrimFloat.is_nan f)
  | VList l => forallb nan_free l
  | VDict d => map_fold (λ _ v acc, acc && nan_free v) true d
  | _ => true
  end.

(** The size of a value, for inductions on values. *)
Fixpoint pyval_size (v : pyval) : nat :=
  match v with
  | VList l => S (sum_list (pyval_size <$> l))
  | VDict d => S (map_fold (λ _ v, plus (pyval_size v)) 0%nat d)
  | _ => 1
  end.

(** The value of a decoded double as a multiple of [2^-1074], when it is
    finite: every finite double is such a multiple. *)
Definition scaled (x : spec_float) : option Z :=
  match x with
  | S754_zero _ => Some 0
  | S754_finite s m e => Some ((if s then Z.neg m else Z.pos m) * 2 ^ (e + 1074))
  | _ => None
  end.

(** ** Exceptions and results *)

Inductive exn :=
  | AssertionError
  | AttributeError
  | KeyError
  | IndexError
  | TypeError
  | ZeroDivisionError
  | ValueError
  | OverflowError
  | SystemError          (* a reference to no object: never raised by a run from a well-formed heap *)
  | UnknownDSID          (* sm.engine.errors.UnknownDSID *)
  | DSIDExists.          (* sm.engine.errors.DSIDExists *)

Global Instance exn_eq_dec : EqDecision exn.
Proof. solve_decision. Defined.

Inductive result (A : Type) :=
  | Ok (a : A)
  | Raise (e : exn).
Arguments Ok {A} a.
Arguments Raise {A} e.

Global Instance result_eq_dec {A} `{EqDecision A} : EqDecision (result A).
Proof. solve_decision. Defined.

Definition rbind {A B} (r : result A) (k : A → result B) : result B :=
  match r with
  | Ok a => k a
  | Raise e => Raise e
  end.

Notation "x <-? e ;; k" := (rbind e (λ x, k))
  (at level 100, e at next level, k at level 200, right associativity).

(** A comprehension [f(x) for x in l], stopping at the first element that
    raises. *)
Fixpoint rmap {A B} (f : A → result B) (l : list A) : result (list B) :=
  match l with
  | [] => Ok []
  | x :: l' => y <-? f x ;; ys <-? rmap f l' ;; Ok (y :: ys)
  end.

(** ** The operations of Python that [compare_configs] uses *)

Fixpoint chars (s : string) : list string :=
  match s with
  | EmptyString => []
  | String a s' => String a EmptyString :: chars s'
  end.

(** [iter(v)]: a list yields its elements, a dict its keys, a string its
    characters; the other values are not iterable. *)
Definition py_iter (v : pyval) : result (list pyval) :=
  match v with
  | VList l => Ok l
  | VDict d => Ok ((VStr ∘ fst) <$> map_to_list d)
  | VStr s => Ok (VStr <$> chars s)
  | _ => Raise TypeError
  end.

(** [v[k]] for a string key [k]. *)
Definition py_getitem (v : pyval) (k : string) : result pyval :=
  match v with
  | VDict d => match d !! k with Some x => Ok x | None => Raise KeyError end
  | _ => Raise TypeError
  end.

(** [v.get(k, dflt)]: only dicts have the method. *)
Definition py_get (v : pyval) (k : string) (dflt : pyval) : result pyval :=
  match v with
  | VDict d => Ok (default dflt (d !! k))
  | _ => Raise AttributeError
  end.

(** A [set] of pairs (2-tuples), kept as the list of its elements in the
    order they were added.  [set_add] is the hashing of an element, which
    building the set does first; two tuples are the same element when their
    components are equal ([==]; equal numbers have equal hashes). *)
Definition set_add (p : pyval * pyval) : result (pyval * pyval) :=
  if hashable p.1 && hashable p.2 then Ok p else Raise TypeError.

(** [p == q] on two tuples. *)
Definition pair_eq (p q : pyval * pyval) : bool := py_eq p.1 q.1 && py_eq p.2 q.2.

(** [p in s] *)
Definition set_mem (p : pyval * pyval) (s : list (pyval * pyval)) : bool :=
  existsb (pair_eq p) s.

(** [s] after the elements of [l] were added one by one: an element
    already in the set is not added again. *)
Fixpoint set_build (s l : list (pyval * pyval)) : list (pyval * pyval) :=
  match l with
  | [] => s
  | p :: l' => set_build (if set_mem p s then s else s ++ [p]) l'
  end.

(** [set(l)] *)
Definition py_set (l : list (pyval * pyval)) : list (pyval * pyval) := set_build [] l.

(** [a - b] *)
Definition set_diff (a b : list (pyval * pyval)) : list (pyval * pyval) :=
  filter (λ p, set_mem p b = false) a.

(** A pair that can be an element of a set made from a JSON document: its
    components are hashable and hold no NaN. *)
Definition set_elem (p : pyval * pyval) : Prop :=
  hashable p.1 = true ∧ hashable p.2 = true
  ∧ nan_free p.1 = true ∧ nan_free p.2 = true.

(** [l[i]] on a list or a tuple. *)
Definition py_index {A} (l : list A) (i : nat) : result A :=
  match l !! i with
  | Some x => Ok x
  | None => Raise IndexError
  end.

(** ** ConfigDiff *)

Module ConfigDiff.

Inductive t := EQUAL | NEW_MOL_DB | INSTR_PARAMS_DIFF.

Global Instance t_eq_dec : EqDecision t.
Proof. solve_decision. Defined.

(** [EQUAL, NEW_MOL_DB, INSTR_PARAMS_DIFF = range(3)] *)
Definition code (d : t) : Z :=
  match d with EQUAL => 0 | NEW_MOL_DB => 1 | INSTR_PARAMS_DIFF => 2 end.

(** The inner function of [compare_configs]:
    [set((mol_db['name'], mol_db.get('version', None)) for mol_db in mol_dbs)] *)
Definition mol_dbs_to_set (mol_dbs : pyval) : result (list (pyval * pyval)) :=
  l <-? py_iter mol_dbs ;;
  ps <-? rmap (λ mol_db,
                 name <-? py_getitem mol_db "name" ;;
                 version <-? py_get mol_db "version" VNone ;;
                 set_add (name, version)) l ;;
  Ok (py_set ps).

(** *** On the heap

    [compare_configs] receives two dict objects and works on copies of
    them.  The heap maps a reference to the dict object it denotes;
    [old.copy()] allocates, [d.pop(k, None)] updates in place. *)

Definition loc := positive.
Abbreviation heap := (gmap loc pydict).

Definition H (A : Type) : Type := heap → result A * heap.

Definition ret {A} (a : A) : H A := λ h, (Ok a, h).
Definition raise {A} (e : exn) : H A := λ h, (Raise e, h).
Definition bind {A B} (m : H A) (k : A → H B) : H B :=
  λ h, match m h with
       | (Ok a, h') => k a h'
       | (Raise e, h') => (Raise e, h')
       end.
Definition lift {A} (r : result A) : H A := λ h, (r, h).

Notation "x <- e ;; k" := (bind e (λ x, k))
  (at level 100, e at next level, k at level 200, right associativity).

(** The dict a reference denotes. *)
Definition deref (l : loc) : H pydict :=
  λ h, match h !! l with
       | Some d => (Ok d, h)
       | None => (Raise SystemError, h)
       end.

(** [a != b] on two dict objects: an object is equal to itself whatever it
    holds (its values are compared by identity first); the contents of two
    objects are compared with [==]. *)
Definition dict_ne (a b : loc) : H bool :=
  da <- deref a ;; db <- deref b ;;
  ret (if decide (a = b) then false else negb (dict_eq da db)).

(** [d.copy()]: a new dict object with the same items. *)
Definition dict_copy (l : loc) : H loc :=
  d <- deref l ;;
  λ h, let l' := fresh (dom h) in (Ok l', <[l' := d]> h).

(** [d.pop(k, None)]: removes the key from the object itself. *)
Definition dict_pop (l : loc) (k : string) : H pyval :=
  d <- deref l ;;
  λ h, (Ok (default VNone (d !! k)), <[l := delete k d]> h).

(** [d.get(k, dflt)] *)
Definition dict_get (l : loc) (k : string) (dflt : pyval) : H pyval :=
  d <- deref l ;; ret (default dflt (d !! k)).

Definition compare_configs (old new : loc) : H t :=
  ne <- dict_ne old new ;;
  if ne : bool then
    old_rest <- dict_copy old ;;
    new_rest <- dict_copy new ;;
    _ <- dict_pop old_rest "databases" ;;
    _ <- dict_pop new_rest "databases" ;;
    rest_ne <- dict_ne old_rest new_rest ;;
    if rest_ne : bool then ret INSTR_PARAMS_DIFF
    else
      old_dbs <- dict_get old "databases" (VList []) ;;
      old_mol_dbs <- lift (mol_dbs_to_set old_dbs) ;;
      new_dbs <- dict_get new "databases" (VList []) ;;
      new_mol_dbs <- lift (mol_dbs_to_set new_dbs) ;;
      if (0 <? length (set_diff new_mol_dbs old_mol_dbs))%nat
      then ret NEW_MOL_DB
      else ret EQUAL
  else ret EQUAL.

(** The heap after a run that made the two copies and popped the key
    from each: the copies are the two new objects. *)
Definition heap_after (h : heap) (o n : pydict) : heap :=
  let l1 := fresh (dom h) in
  let h1 := <[l1 := o]> h in
  let l2 := fresh (dom h1) in
  <[l2 := delete "databases" n]> (<[l1 := delete "databases" o]> (<[l2 := n]> h1)).

(** *** On values

    What [compare_configs] returns as a function of the contents of its
    two arguments, when they are two objects ([compare_configs_run] below
    shows it is). *)
Definition compare_configs_val (old new : pydict) : result t :=
  if negb (dict_eq old new) then
    let old_rest := delete "databases" old in
    let new_rest := delete "databases" new in
    if negb (dict_eq old_rest new_rest) then Ok INSTR_PARAMS_DIFF
    else
      old_mol_dbs <-? mol_dbs_to_set (default (VList []) (old !! "databases")) ;;
      new_mol_dbs <-? mol_dbs_to_set (default (VList []) (new !! "databases")) ;;
      if (0 <? length (set_diff new_mol_dbs old_mol_dbs))%nat
      then Ok NEW_MOL_DB
      else Ok EQUAL
  else Ok EQUAL.

(** *** The classifier as the specification words it *)

(** The [(name, version)] pair of one database selection [{name, version?}]. *)
Definition selection_pair (sel : pyval) : option (pyval * pyval) :=
  match sel with
  | VDict d => name ← d !! "name"; Some (name, default VNone (d !! "version"))
  | _ => None
  end.

(** The pairs of a config's [databases] list. *)
Definition selections (c : pydict) : list (pyval * pyval) :=
  match c !! "databases" with
  | Some (VList l) => omap selection_pair l
  | _ => []
  end.

(** "Strip the databases key from both configs and compare the remainder;
    if different, INSTR_PARAMS_DIFF.  Otherwise compare the sets of
    (name, version) pairs; if the new set contains any pair absent from
    the old set, NEW_MOL_DB.  Otherwise EQUAL."  To differ is not to be
    equal ([==]), and a pair is absent from a set that holds no pair equal
    to it. *)
Definition classify_ref (old new : pydict) : t :=
  if dict_eq (delete "databases" old) (delete "databases" new) then
    if existsb (λ p, negb (set_mem p (selections old))) (selections new)
    then NEW_MOL_DB
    else EQUAL
  else INSTR_PARAMS_DIFF.

(** A config of the data model: a JSON document (no NaN) in which
    [databases], when present, is a list of selections, each a dict with a
    hashable [name] and, when present, a hashable [version]. *)
Definition wf_selection (sel : pyval) : bool :=
  match sel with
  | VDict d =>
      match d !! "name" with
      | Some name => hashable name && hashable (default VNone (d !! "version"))
      | None => false
      end
  | _ => false
  end.

Definition wf_config (c : pydict) : bool :=
  nan_free (VDict c)
  && match c !! "databases" with
     | None => true
     | Some (VList l) => forallb wf_selection l
     | Some _ => false
     end.

End ConfigDiff.

(** ** DatasetStatus, DatasetAction, DatasetActionPriority *)

Module DatasetStatus.
Definition NEW : string := "NEW".
Definition QUEUED : string := "QUEUED".
Definition STARTED : string := "STARTED".
Definition FINISHED : string := "FINISHED".
Definition FAILED : string := "FAILED".
Definition INDEXING : string := "INDEXING".
Definition DELETED : string := "DELETED".
End DatasetStatus.

Module DatasetAction.
Definition ADD : string := "ADD".
Definition UPDATE : string := "UPDATE".
Definition DELETE : string := "DELETE".
End DatasetAction.

Module DatasetActionPriority.
Definition LOW : Z := 0.
Definition STANDARD : Z := 1.
Definition HIGH : Z := 2.
Definition DEFAULT : Z := LOW.
End DatasetActionPriority.

(** ** Dataset *)

(** The upload time; [isoformat] and the JSON encoding of the documents are
    injective renderings of the values and are left out: a row holds the
    values themselves. *)
Definition datetime := Z.

(** The attributes [__init__] sets.  [None] is Python's [None]. *)
Record Dataset := mkDataset {
  id : option string;
  name : option string;
  input_path : option string;
  upload_dt : option datetime;
  metadata : pyval;
  config : option pydict;
  status : option string;
  is_public : option bool;
  mol_dbs : option (list string);
}.

Global Instance Dataset_eq_dec : EqDecision Dataset.
Proof. solve_decision. Defined.

(** [Dataset(id)]: the defaults of [__init__]. *)
Definition Dataset_init (ds_id : option string) : Dataset :=
  {| id := ds_id; name := None; input_path := None; upload_dt := None;
     metadata := VNone; config := None; status := Some DatasetStatus.NEW;
     is_public := Some true; mol_dbs := None |}.

(** [ds.status = s] *)
Definition Dataset_with_status (ds : Dataset) (s : option string) : Dataset :=
  mkDataset (id ds) (name ds) (input_path ds) (upload_dt ds) (metadata ds)
            (config ds) s (is_public ds) (mol_dbs ds).

(** [ds.config = c] *)
Definition Dataset_with_config (ds : Dataset) (c : option pydict) : Dataset :=
  mkDataset (id ds) (name ds) (input_path ds) (upload_dt ds) (metadata ds)
            c (status ds) (is_public ds) (mol_dbs ds).

(** [ds.metadata = m] *)
Definition Dataset_with_metadata (ds : Dataset) (m : pyval) : Dataset :=
  mkDataset (id ds) (name ds) (input_path ds) (upload_dt ds) m
            (config ds) (status ds) (is_public ds) (mol_dbs ds).

(** The value of an attribute. *)
Inductive attr_value :=
  | AStr (s : option string)
  | ATime (t : option datetime)
  | ADoc (v : pyval)
  | AConf (c : option pydict)
  | AFlag (b : option bool)
  | ANames (l : option (list string)).

Global Instance attr_value_eq_dec : EqDecision attr_value.
Proof. solve_decision. Defined.

(** [self.__dict__]: the instance attributes, as [__init__] creates them
    ([__str__] prints it, [__eq__] compares it). *)
Definition Dataset_dict (ds : Dataset) : list (string * attr_value) :=
  [ ("id", AStr (id ds));
    ("name", AStr (name ds));
    ("input_path", AStr (input_path ds));
    ("upload_dt", ATime (upload_dt ds));
    ("metadata", ADoc (metadata ds));
    ("config", AConf (config ds));
    ("status", AStr (status ds));
    ("is_public", AFlag (is_public ds));
    ("mol_dbs", ANames (mol_dbs ds)) ]%string.

Fixpoint assoc {A} (k : string) (l : list (string * A)) : option A :=
  match l with
  | [] => None
  | (k', v) :: l' => if bool_decide (k = k') then Some v else assoc k l'
  end.

(** [ds.a] for a data attribute [a]: the class defines only the four SQL
    strings and the methods besides, and no [__getattr__]. *)
Definition getattr (ds : Dataset) (a : string) : result attr_value :=
  match assoc a (Dataset_dict ds) with
  | Some v => Ok v
  | None => Raise AttributeError
  end.

(** [a == b] on two values of the same attribute: the documents are
    compared with [==]. *)
Definition attr_eq (a b : attr_value) : bool :=
  match a, b with
  | ADoc v, ADoc w => py_eq v w
  | AConf (Some c), AConf (Some d) => dict_eq c d
  | _, _ => bool_decide (a = b)
  end.

Definition str_truthy (s : option string) : bool :=
  match s with Some s => negb (bool_decide (s = "")) | None => false end.

(** ** The collaborators *)

(** A statement that writes to the [dataset] table. *)
Inductive db_write :=
  | DS_INSERT (row : Dataset)
  | DS_UPD (row : Dataset).

(** What the dispatcher acts on: the [dataset] table, and the calls made so
    far on the database, the search index, the two queues and the logger
    (the most recent first).  The collaborators themselves do not fail. *)
Record World := mkWorld {
  dataset_table : gmap string Dataset;
  db_writes : list db_write;
  es_sync : list (option string);          (* es.sync_dataset(id) *)
  status_published : list pydict;          (* status_queue.publish(msg) *)
  action_published : list (pydict * Z);    (* action_queue.publish(msg, priority) *)
  log : list string;
}.

(** A computation on a dataset object and the world; both keep what was
    done to them when the computation raises. *)
Definition Act (A : Type) : Type := Dataset * World → result A * (Dataset * World).

Definition aret {A} (a : A) : Act A := λ s, (Ok a, s).
Definition araise {A} (e : exn) : Act A := λ s, (Raise e, s).
Definition abind {A B} (m : Act A) (k : A → Act B) : Act B :=
  λ s, match m s with
       | (Ok a, s') => k a s'
       | (Raise e, s') => (Raise e, s')
       end.
Definition alift {A} (r : result A) : Act A := λ s, (r, s).
Definition get_ds : Act Dataset := λ s, (Ok s.1, s).
Definition get_world : Act World := λ s, (Ok s.2, s).
Definition put_ds (ds : Dataset) : Act unit := λ s, (Ok tt, (ds, s.2)).
Definition put_world (w : World) : Act unit := λ s, (Ok tt, (s.1, w)).

Notation "x <~ e ;; k" := (abind e (λ x, k))
  (at level 100, e at next level, k at level 200, right associativity).
Notation "e ;;; k" := (abind e (λ _, k))
  (at level 100, k at level 200, right associativity).

Definition logger_info (fmt : string) : Act unit :=
  w <~ get_world ;;
  put_world (mkWorld (dataset_table w) (db_writes w) (es_sync w)
                     (status_published w) (action_published w) (fmt :: log w)).

(** [db.select_one(DS_SEL, ds_id)] *)
Definition select_one (w : World) (ds_id : option string) : option Dataset :=
  i ← ds_id; dataset_table w !! i.

Definition db_insert (row : Dataset) : Act unit :=
  w <~ get_world ;;
  put_world (mkWorld (match id row with
                      | Some i => <[i := row]> (dataset_table w)
                      | None => dataset_table w
                      end)
                     (DS_INSERT row :: db_writes w) (es_sync w)
                     (status_published w) (action_published w) (log w)).

Definition db_alter (row : Dataset) : Act unit :=
  w <~ get_world ;;
  put_world (mkWorld (match id row with
                      | Some i => <[i := row]> (dataset_table w)
                      | None => dataset_table w
                      end)
                     (DS_UPD row :: db_writes w) (es_sync w)
                     (status_published w) (action_published w) (log w)).

Definition es_sync_dataset (ds_id : option string) : Act unit :=
  w <~ get_world ;;
  put_world (mkWorld (dataset_table w) (db_writes w) (ds_id :: es_sync w)
                     (status_published w) (action_published w) (log w)).

Definition status_queue_publish (msg : pydict) : Act unit :=
  w <~ get_world ;;
  put_world (mkWorld (dataset_table w) (db_writes w) (es_sync w)
                     (msg :: status_published w) (action_published w) (log w)).

Definition action_queue_publish (msg : pydict) (priority : Z) : Act unit :=
  w <~ get_world ;;
  put_world (mkWorld (dataset_table w) (db_writes w) (es_sync w)
                     (status_published w) ((msg, priority) :: action_published w) (log w)).

Definition of_str (s : option string) : pyval :=
  match s with Some s => VStr s | None => VNone end.

(** *** The methods of Dataset *)

(** [Dataset.load(db, ds_id)] *)
Definition Dataset_load (w : World) (ds_id : option string) : result Dataset :=
  match select_one w ds_id with
  | Some r =>
      Ok (mkDataset ds_id (name r) (input_path r) (upload_dt r) (metadata r)
                    (config r) (status r) (is_public r) (mol_dbs r))
  | None => Raise UnknownDSID
  end.

Definition is_stored (w : World) (ds : Dataset) : bool :=
  bool_decide (is_Some (select_one w (id ds))).

(** The condition [save] asserts. *)
Definition save_precondition (ds : Dataset) : bool :=
  str_truthy (id ds) && str_truthy (name ds) && str_truthy (input_path ds)
  && bool_decide (is_Some (upload_dt ds))
  && match config ds with Some c => negb (bool_decide (c = ∅)) | None => false end
  && str_truthy (status ds)
  && bool_decide (is_public ds ≠ None)
  && match mol_dbs ds with Some l => negb (bool_decide (l = [])) | None => false end.

(** [ds.save(db, es, status_queue)]; [status_queue] tells whether a queue
    was passed (one that is not [None]). *)
Definition save (status_queue : bool) : Act unit :=
  ds <~ get_ds ;;
  if negb (save_precondition ds) then araise AssertionError
  else
    w <~ get_world ;;
    (if negb (is_stored w ds) then db_insert ds else db_alter ds) ;;;
    logger_info "Inserted into dataset table: %s, %s" ;;;
    es_sync_dataset (id ds) ;;;
    if status_queue
    then status_queue_publish
           (<["ds_id" := of_str (id ds)]> (<["status" := of_str (status ds)]> ∅))
    else aret tt.

(** [ds.set_status(db, es, status_queue, status)] *)
Definition set_status (status_queue : bool) (new_status : option string) : Act unit :=
  ds <~ get_ds ;;
  put_ds (Dataset_with_status ds new_status) ;;;
  save status_queue.

(** [s.lower()] on a string of ASCII characters, where it changes the
    letters A to Z and nothing else.  A string is kept as its bytes; on a
    string with other characters Python applies the Unicode case tables,
    which are not modelled: what is stated about the value of [lower]
    assumes [is_ascii]. *)
Fixpoint is_ascii (s : string) : bool :=
  match s with
  | EmptyString => true
  | String a s' => (Ascii.nat_of_ascii a <? 128)%nat && is_ascii s'
  end.

Definition lower_ascii (a : Ascii.ascii) : Ascii.ascii :=
  let n := Ascii.nat_of_ascii a in
  if ((65 <=? n) && (n <=? 90))%nat then Ascii.ascii_of_nat (n + 32) else a.

Fixpoint lower (s : string) : string :=
  match s with
  | EmptyString => EmptyString
  | String a s' => String (lower_ascii a) (lower s')
  end.

(** [v.lower()]: a method of strings only. *)
Definition py_lower (v : pyval) : result pyval :=
  match v with
  | VStr s => Ok (VStr (lower s))
  | _ => Raise AttributeError
  end.

(** [self.metadata.get('Submitted_By', {}).get('Submitter', {}).get('Email', None)] *)
Definition submitter_email (ds : Dataset) : result pyval :=
  submitted_by <-? py_get (metadata ds) "Submitted_By" (VDict ∅) ;;
  submitter <-? py_get submitted_by "Submitter" (VDict ∅) ;;
  py_get submitter "Email" VNone.

(** [ds.to_queue_message()] *)
Definition to_queue_message (ds : Dataset) : result pydict :=
  let msg : pydict :=
    <["ds_id" := of_str (id ds)]>
      (<["ds_name" := of_str (name ds)]>
         (<["input_path" := of_str (input_path ds)]> ∅)) in
  submitted_by <-? py_get (metadata ds) "Submitted_By" (VDict ∅) ;;
  submitter <-? py_get submitted_by "Submitter" (VDict ∅) ;;
  email <-? py_get submitter "Email" VNone ;;
  if truthy email then
    e <-? py_lower email ;; Ok (<["user_email" := e]> msg)
  else Ok msg.

(** ** SMapiDatasetManager *)

(** The fields the dispatch methods read: the mode, and whether a status
    queue and an action queue were given ([None] otherwise). *)
Record SMapiDatasetManager := mkManager {
  mode : string;
  status_queue : bool;
  action_queue : bool;
}.

Module SMapi.

(** [self._post_sm_msg(ds, action, priority, **kwargs)] *)
Definition _post_sm_msg (self : SMapiDatasetManager) (action : string)
    (priority : Z) (kwargs : pydict) : Act unit :=
  set_status (status_queue self) (Some DatasetStatus.QUEUED) ;;;
  if bool_decide (mode self = "queue") then
    ds <~ get_ds ;;
    msg <~ alift (to_queue_message ds) ;;
    let msg := <["action" := VStr action]> msg in
    let msg := kwargs ∪ msg in
    (if action_queue self then action_queue_publish msg priority
     else araise AttributeError) ;;;
    logger_info "New message posted to %s: %s"
  else aret tt.

(** [self.add(ds, del_first, priority)] *)
Definition add (self : SMapiDatasetManager) (del_first : bool) (priority : Z) : Act unit :=
  ds <~ get_ds ;;
  w <~ get_world ;;
  if negb del_first && is_stored w ds then araise DSIDExists
  else _post_sm_msg self DatasetAction.ADD priority
         (<["del_first" := VBool del_first]> ∅).

(** [self.delete(ds, del_raw_data)] *)
Definition delete (self : SMapiDatasetManager) (del_raw_data : bool) : Act unit :=
  _post_sm_msg self DatasetAction.DELETE DatasetActionPriority.HIGH ∅.

(** [compare_configs] on the [config] attributes of two datasets: [None]
    has no [copy]. *)
Definition compare_dataset_configs (old new : option pydict) : result ConfigDiff.t :=
  match old, new with
  | Some o, Some n => ConfigDiff.compare_configs_val o n
  | None, None => Ok ConfigDiff.EQUAL
  | _, _ => Raise AttributeError
  end.

(** [self.update(ds, priority)] *)
Definition update (self : SMapiDatasetManager) (priority : Z) : Act unit :=
  ds <~ get_ds ;;
  w <~ get_world ;;
  old_ds <~ alift (Dataset_load w (id ds)) ;;
  config_diff <~ alift (compare_dataset_configs (config old_ds) (config ds)) ;;
  old_meta <~ alift (getattr old_ds "meta") ;;
  new_meta <~ alift (getattr ds "meta") ;;
  let meta_diff := negb (attr_eq old_meta new_meta) in
  if bool_decide (config_diff = ConfigDiff.INSTR_PARAMS_DIFF) then
    _post_sm_msg self DatasetAction.ADD priority (<["del_first" := VBool true]> ∅)
  else if bool_decide (config_diff = ConfigDiff.NEW_MOL_DB) then
    _post_sm_msg self DatasetAction.ADD priority ∅
  else if bool_decide (config_diff = ConfigDiff.EQUAL) && meta_diff then
    _post_sm_msg self DatasetAction.UPDATE DatasetActionPriority.HIGH ∅
  else logger_info "Nothing to update: %s %s".

End SMapi.

(** ** The zoom of an optical image *)

Module Zoom.

(** [float(n)]: the double nearest to the integer (ties to even); an
    integer beyond the range of the doubles raises OverflowError. *)
Definition float_of_int (n : Z) : result float :=
  let x := SF2Prim (binary_normalize prec emax n 0 false) in
  if PrimFloat.is_infinity x then Raise OverflowError else Ok x.

(** [x / n] for a float [x] and an integer [n]. *)
Definition float_div_int (x : float) (n : Z) : result float :=
  y <-? float_of_int n ;;
  if n =? 0 then Raise ZeroDivisionError
  else Ok (PrimFloat.div x y).

(** [min(a, b)]: the first argument unless the second is smaller. *)
Definition float_min (a b : float) : float :=
  if PrimFloat.ltb b a then b else a.

(** The integer nearest to [m / 2^k], a tie going to the even one. *)
Definition nearest_even (m : Z) (k : Z) : Z :=
  let d := 2 ^ k in
  let q := m / d in
  let r := m mod d in
  if 2 * r <? d then q
  else if d <? 2 * r then q + 1
  else if Z.even q then q else q + 1.

(** [round(x)] with one argument, as Python 3 defines it on a float: the
    nearest integer, a tie going to the even one; it is exact, since a
    finite double is [m * 2^e] for integers [m] and [e]. *)
Definition py_round (x : float) : result Z :=
  match Prim2SF x with
  | S754_zero _ => Ok 0
  | S754_finite s m e =>
      let a := if 0 <=? e then Z.pos m * 2 ^ e else nearest_even (Z.pos m) (- e) in
      Ok (if s then - a else a)
  | S754_infinity _ => Raise OverflowError
  | S754_nan => Raise ValueError
  end.

Definition VIEWPORT_WIDTH : float := 1000%float.
Definition VIEWPORT_HEIGHT : float := 500%float.

(** The first statement of [_transform_scan]:
    [zoom = int(round(zoom * min(VIEWPORT_WIDTH / dims[0], VIEWPORT_HEIGHT / dims[1])))]
    for an integer zoom level and the pixel dimensions of the image. *)
Definition effective_zoom (zoom : Z) (dims : Z * Z) : result Z :=
  fw <-? float_div_int VIEWPORT_WIDTH dims.1 ;;
  fh <-? float_div_int VIEWPORT_HEIGHT dims.2 ;;
  z <-? float_of_int zoom ;;
  py_round (PrimFloat.mul z (float_min fw fh)).

(** The size of the canvas the scan is resampled onto:
    [(dims[0] * zoom, dims[1] * zoom)]. *)
Definition canvas_size (zoom : Z) (dims : Z * Z) : result (Z * Z) :=
  z <-? effective_zoom zoom dims ;; Ok (dims.1 * z, dims.2 * z).

End Zoom.

(** ** MolecularDB: the table of theoretical peaks *)

Module MolecularDB.

(** A row of the two peak queries:
    [(sf_id, adduct, centr_mzs, centr_ints)]. *)
Record peak_row := mkRow {
  sf_id : Z;
  adduct : string;
  centr_mzs : list float;
  centr_ints : list float;
}.

(** The columns [['sf_id', 'adduct']] of a row. *)
Definition sf_adduct (r : peak_row) : Z * string := (sf_id r, adduct r).

(** What [db.select] returns for the two peak queries, as a function of
    the query parameters: the database id, (for targets) the adducts, (for
    decoys) the job id, sigma, the points per m/z and the charge, given by
    its polarity and its number of charges. *)
Record PeaksDB := mkPeaksDB {
  THEOR_PEAKS_TARGET_ADD_SEL :
    Z → pyval → pyval → pyval → pyval * pyval → list peak_row;
  THEOR_PEAKS_DECOY_ADD_SEL :
    Z → option Z → pyval → pyval → pyval * pyval → list peak_row;
}.

(** The fields of a [MolecularDB] that [sf_df] reads and writes. *)
Record t := mkMolDB {
  ds_config : pydict;
  _id : Z;
  _job_id : option Z;
  _sf_df : option (list peak_row);
}.

(** The order of [sort_values(['sf_id', 'adduct'])]. *)
Definition sf_adduct_leb (r1 r2 : peak_row) : bool :=
  (sf_id r1 <? sf_id r2)
  || ((sf_id r1 =? sf_id r2) && String.leb (adduct r1) (adduct r2)).

Definition sf_adduct_le (r1 r2 : peak_row) : Prop := Is_true (sf_adduct_leb r1 r2).

Global Instance sf_adduct_le_dec : RelDecision sf_adduct_le.
Proof. intros r1 r2. unfold sf_adduct_le. apply _. Defined.

Definition sort_values (rows : list peak_row) : list peak_row :=
  merge_sort sf_adduct_le rows.

(** [pd.unique(sf_df[['sf_id', 'adduct']].values).shape[0]], read as the
    message of the assertion reads it: the number of distinct
    [(sf_id, adduct)] rows.  The argument is a two-dimensional array; a
    pandas that accepts only one-dimensional input raises ValueError in
    [pd.unique] instead, on every table, so that an access on an object
    without a table never returns.  The table is stored in the object
    before the check: what is stated about the object after an access
    holds under both readings. *)
Definition uniq_sf_adducts (sf_df : list peak_row) : nat :=
  length (remove_dups (sf_adduct <$> sf_df)).

Definition _check_formula_uniqueness (sf_df : list peak_row) : result unit :=
  if bool_decide (uniq_sf_adducts sf_df = length sf_df) then Ok tt
  else Raise AssertionError.

(** The parameters of the two queries that [sf_df] reads from
    [ds_config['isotope_generation']], in the order it reads them; the
    charge stands for the string ['{}{}'.format(polarity, n_charges)]. *)
Record iso_gen_params := mkParams {
  charge : pyval * pyval;
  adducts : pyval;
  isocalc_sigma : pyval;
  isocalc_pts_per_mz : pyval;
}.

Definition read_iso_gen_conf (self : t) : result iso_gen_params :=
  iso_gen_conf <-? py_getitem (VDict (ds_config self)) "isotope_generation" ;;
  charge_conf <-? py_getitem iso_gen_conf "charge" ;;
  polarity <-? py_getitem charge_conf "polarity" ;;
  n_charges <-? py_getitem charge_conf "n_charges" ;;
  adducts <-? py_getitem iso_gen_conf "adducts" ;;
  sigma <-? py_getitem iso_gen_conf "isocalc_sigma" ;;
  pts_per_mz <-? py_getitem iso_gen_conf "isocalc_pts_per_mz" ;;
  Ok (mkParams (polarity, n_charges) adducts sigma pts_per_mz).

Definition target_sf_peaks_rs (db : PeaksDB) (self : t) (p : iso_gen_params) : list peak_row :=
  THEOR_PEAKS_TARGET_ADD_SEL db (_id self) (adducts p) (isocalc_sigma p)
    (isocalc_pts_per_mz p) (charge p).

Definition decoy_sf_peaks_rs (db : PeaksDB) (self : t) (p : iso_gen_params) : list peak_row :=
  THEOR_PEAKS_DECOY_ADD_SEL db (_id self) (_job_id self) (isocalc_sigma p)
    (isocalc_pts_per_mz p) (charge p).

(** The body of [sf_df] up to the construction of the data frame: the two
    queries, each followed by its assertion, and the sorted concatenation. *)
Definition load_sf_peaks (db : PeaksDB) (self : t) : result (list peak_row) :=
  p <-? read_iso_gen_conf self ;;
  match target_sf_peaks_rs db self p with
  | [] => Raise AssertionError
  | _ :: _ =>
      match decoy_sf_peaks_rs db self p with
      | [] => Raise AssertionError
      | _ :: _ =>
          Ok (sort_values (target_sf_peaks_rs db self p ++ decoy_sf_peaks_rs db self p))
      end
  end.

(** The property [sf_df]: the value it returns or the exception it
    raises, and the object after the access. *)
Definition sf_df (db : PeaksDB) (self : t) : result (list peak_row) * t :=
  match _sf_df self with
  | Some df => (Ok df, self)
  | None =>
      match load_sf_peaks db self with
      | Raise e => (Raise e, self)
      | Ok df =>
          let self' := mkMolDB (ds_config self) (_id self) (_job_id self) (Some df) in
          match _check_formula_uniqueness df with
          | Raise e => (Raise e, self')
          | Ok _ => (Ok df, self')
          end
      end
  end.

End MolecularDB.

(** ** SMDaemonDatasetManager: what a queued DELETE is run with *)

Module SMDaemon.

(** [process(ds, action, **kwargs)] calls [delete(ds, **kwargs)], whose
    signature is [delete(self, ds, del_raw_data=False, **kwargs)]: the
    value [del_raw_data] is bound to, for the keyword arguments [kwargs]. *)
Definition delete_del_raw_data (kwargs : pydict) : pyval :=
  default (VBool false) (kwargs !! "del_raw_data").

(** [if del_raw_data:] the input data are deleted. *)
Definition deletes_raw_data (kwargs : pydict) : bool :=
  truthy (delete_del_raw_data kwargs).

End SMDaemon.

(** ** Notions used to state the properties *)

(** The world after a [save] that passed its assertion. *)
Definition world_after_save (status_queue : bool) (ds : Dataset) (w : World) : World :=
  mkWorld (match id ds with
           | Some i => <[i := ds]> (dataset_table w)
           | None => dataset_table w
           end)
          ((if is_stored w ds then DS_UPD ds else DS_INSERT ds) :: db_writes w)
          (id ds :: es_sync w)
          (if status_queue
           then <["ds_id" := of_str (id ds)]> (<["status" := of_str (status ds)]> ∅)
                :: status_published w
           else status_published w)
          (action_published w)
          ("Inserted into dataset table: %s, %s"%string :: log w).

(** The world after an action message was published and logged. *)
Definition world_after_publish (msg : pydict) (priority : Z) (w : World) : World :=
  mkWorld (dataset_table w) (db_writes w) (es_sync w) (status_published w)
          ((msg, priority) :: action_published w)
          ("New message posted to %s: %s"%string :: log w).

(** The message [_post_sm_msg] builds from the dataset's own message. *)
Definition action_message (action : string) (kwargs msg : pydict) : pydict :=
  kwargs ∪ <["action" := VStr action]> msg.

(** "All fields except status are required": every field but [status] is
    there (is not [None]). *)
Definition all_but_status_present (ds : Dataset) : bool :=
  bool_decide (is_Some (id ds)) && bool_decide (is_Some (name ds))
  && bool_decide (is_Some (input_path ds)) && bool_decide (is_Some (upload_dt ds))
  && bool_decide (metadata ds ≠ VNone) && bool_decide (is_Some (config ds))
  && bool_decide (is_Some (is_public ds)) && bool_decide (is_Some (mol_dbs ds)).

(** ** Concrete datasets, worlds and peak tables *)

Module Examples.

Definition db_X1 : pyval := VDict (<["name" := VStr "X"]> (<["version" := VInt 1]> ∅)).
Definition db_Y1 : pyval := VDict (<["name" := VStr "Y"]> (<["version" := VInt 1]> ∅)).

(** [{instr: A, databases: [{X, 1}]}] and its variants *)
Definition conf_A_X : pydict :=
  <["instr" := VStr "A"]> (<["databases" := VList [db_X1]]> ∅).
Definition conf_A_XY : pydict :=
  <["instr" := VStr "A"]> (<["databases" := VList [db_X1; db_Y1]]> ∅).
Definition conf_B_X : pydict :=
  <["instr" := VStr "B"]> (<["databases" := VList [db_X1]]> ∅).

(** The same parameter written as an [int], a [bool] and a [float]. *)
Definition conf_sigma_int : pydict :=
  <["isocalc_sigma" := VInt 1]> (<["databases" := VList [db_X1]]> ∅).
Definition conf_sigma_bool : pydict :=
  <["isocalc_sigma" := VBool true]> (<["databases" := VList [db_X1]]> ∅).
Definition conf_sigma_float : pydict :=
  <["isocalc_sigma" := VFloat 1%float]> (<["databases" := VList [db_X1]]> ∅).
Definition conf_sigma_half : pydict :=
  <["isocalc_sigma" := VFloat 0.5%float]> (<["databases" := VList [db_X1]]> ∅).

Definition meta_1 : pyval :=
  VDict (<["Submitted_By" :=
             VDict (<["Submitter" := VDict (<["Email" := VStr "Ann@Lab.org"]> ∅)]> ∅)]> ∅).
Definition meta_2 : pyval :=
  VDict (<["Sample" := VStr "liver"]> ∅).

Definition ds_1 : Dataset :=
  mkDataset (Some "ds1") (Some "first") (Some "s3://in/ds1") (Some 1500000000)
            meta_1 (Some conf_A_X) (Some DatasetStatus.FINISHED) (Some true) (Some ["X"]).

Definition world_0 : World := mkWorld ∅ [] [] [] [] [].

(** A world in which [ds_1] is stored. *)
Definition world_1 : World := mkWorld (<["ds1" := ds_1]> ∅) [] [] [] [] [].

Definition api : SMapiDatasetManager := mkManager "queue" true true.

(** A dataset made with [Dataset('ds2')] and nothing else. *)
Definition ds_bare : Dataset := Dataset_init (Some "ds2").

Definition heap_1 : ConfigDiff.heap := <[1%positive := conf_A_X]> (<[2%positive := conf_A_XY]> ∅).

Import MolecularDB.

Definition iso_conf : pydict :=
  <["isotope_generation" :=
      VDict (<["charge" := VDict (<["polarity" := VStr "+"]> (<["n_charges" := VInt 1]> ∅))]>
            (<["adducts" := VList [VStr "+H"; VStr "+Na"]]>
            (<["isocalc_sigma" := VInt 1]>
            (<["isocalc_pts_per_mz" := VInt 8799]> ∅))))]> ∅.

Definition row (i : Z) (a : string) : peak_row := mkRow i a [100%float] [1%float].

(** Targets for formulas 1 and 2; the decoy adduct assigned to formula 1
    is one of the target adducts. *)
Definition db_dup : PeaksDB :=
  mkPeaksDB (λ _ _ _ _ _, [row 1 "+H"; row 2 "+H"])
            (λ _ _ _ _ _, [row 1 "+H"; row 2 "+He"]).

Definition db_no_target : PeaksDB :=
  mkPeaksDB (λ _ _ _ _ _, []) (λ _ _ _ _ _, [row 1 "+He"]).

Definition moldb_0 : MolecularDB.t := mkMolDB iso_conf 7 (Some 3) None.

Definition df_dup : list peak_row :=
  [row 1 "+H"; row 1 "+H"; row 2 "+H"; row 2 "+He"].

End Examples.

(** ** The derived views of the peak table *)

Module PeakViews.
Import MolecularDB.

(** [sf_peak_gen(sf_df)]: a row for every centroid of every formula and
    adduct, with the index of the centroid. *)
Definition sf_peak_gen (sf_df : list peak_row) : list (Z * string * nat * float) :=
  concat ((λ r, imap (λ pi mz, (sf_id r, adduct r, pi, mz)) (centr_mzs r)) <$> sf_df).

(** [dict(pairs)]: a later pair replaces an earlier one with the same key. *)
Definition dict_of_pairs {K V} `{Countable K} (pairs : list (K * V)) : gmap K V :=
  foldl (λ d kv, <[kv.1 := kv.2]> d) ∅ pairs.

(** [dict(zip(zip(self.sf_df.sf_id, self.sf_df.adduct), self.sf_df.centr_ints))]:
    the property [sf_df] is read three times. *)
Definition get_sf_peak_ints (db : PeaksDB) (self : t)
    : result (gmap (Z * string) (list float)) * t :=
  match sf_df db self with
  | (Raise e, self1) => (Raise e, self1)
  | (Ok df1, self1) =>
      match sf_df db self1 with
      | (Raise e, self2) => (Raise e, self2)
      | (Ok df2, self2) =>
          match sf_df db self2 with
          | (Raise e, self3) => (Raise e, self3)
          | (Ok df3, self3) =>
              (Ok (dict_of_pairs
                     (zip (zip (sf_id <$> df1) (adduct <$> df2)) (centr_ints <$> df3))),
               self3)
          end
      end
  end.

(** [self.set_job_id(job_id)] *)
Definition set_job_id (self : t) (job_id : Z) : t :=
  mkMolDB (ds_config self) (_id self) (Some job_id) (_sf_df self).

End PeakViews.

(** ** The optical images of a dataset *)

Module OpticalImage.

Section optical.
(** An image as the imaging library holds it, and an encoded image. *)
Context {image bytes : Type}.

(** A call on the image store. *)
Inductive img_call :=
  | delete_image_by_id (storage kind img_id : string)
  | post_image (storage kind : string) (buf : bytes) (img_id : string).

(** What the optical-image methods act on: for every row of the [dataset]
    table its columns [optical_image] and [transform]; the rows
    [(id, ds_id, zoom)] of the [optical_image] table; the calls made on the
    image store and the logger (the most recent first). *)
Record store := mkStore {
  dataset_optical : gmap string (option string * option pyval);
  optical_image : list (string * option string * Z);
  img_store_calls : list img_call;
  info_log : list string;
}.

(** The collaborators: the raw image the store returns for an id, the
    resampling of [_transform_scan] after the zoom is computed (the
    normalisation of the transform and the perspective warp), the JPEG
    encoding, and the id the store gives a posted image, which may depend on
    the calls made before. *)
Variable get_image_by_id : string → result image.
Variable warp : image → pyval → Z * Z → Z → result image.
Variable save_jpeg : image → result bytes.
Variable new_image_id : list img_call → bytes → string.

Definition O (A : Type) : Type := store → result A * store.

Definition oret {A} (a : A) : O A := λ s, (Ok a, s).
Definition obind {A B} (m : O A) (k : A → O B) : O B :=
  λ s, match m s with
       | (Ok a, s') => k a s'
       | (Raise e, s') => (Raise e, s')
       end.
Definition olift {A} (r : result A) : O A := λ s, (r, s).
Definition get_store : O store := λ s, (Ok s, s).

Notation "x <~~ e ;; k" := (obind e (λ x, k))
  (at level 100, e at next level, k at level 200, right associativity).

(** [f(x)] for each [x] of a list in turn, stopping at the first that raises. *)
Fixpoint omap_each {A B} (f : A → O B) (l : list A) : O (list B) :=
  match l with
  | [] => oret []
  | x :: l' => y <~~ f x ;; ys <~~ omap_each f l' ;; oret (y :: ys)
  end.

Definition logger_info (fmt : string) : O unit :=
  λ s, (Ok tt, mkStore (dataset_optical s) (optical_image s) (img_store_calls s)
                       (fmt :: info_log s)).

Definition img_delete (kind img_id : string) : O unit :=
  λ s, (Ok tt, mkStore (dataset_optical s) (optical_image s)
                       (delete_image_by_id "fs" kind img_id :: img_store_calls s)
                       (info_log s)).

Definition img_post (kind : string) (buf : bytes) : O string :=
  λ s, let i := new_image_id (img_store_calls s) buf in
       (Ok i, mkStore (dataset_optical s) (optical_image s)
                      (post_image "fs" kind buf i :: img_store_calls s)
                      (info_log s)).

(** [db.select_one(SEL_DATASET_RAW_OPTICAL_IMAGE, ds.id)]: the row
    [(optical_image,)] of the dataset, if the dataset has a row. *)
Definition select_raw_optical_image (s : store) (ds : Dataset) : option (option string) :=
  i ← id ds; fst <$> dataset_optical s !! i.

(** [WHERE ds_id = %s] on a row of [optical_image]. *)
Definition of_dataset (ds : Dataset) (row : string * option string * Z) : Prop :=
  is_Some (id ds) ∧ row.1.2 = id ds.

Global Instance of_dataset_dec ds row : Decision (of_dataset ds row).
Proof. unfold of_dataset. apply _. Defined.

(** [db.select(SEL_OPTICAL_IMAGE, ds.id)] *)
Definition select_optical_image (s : store) (ds : Dataset) : list string :=
  (λ row, row.1.1) <$> filter (of_dataset ds) (optical_image s).

(** [db.alter(UPD_DATASET_RAW_OPTICAL_IMAGE, img_id, transform, ds.id)] and
    [db.alter(DEL_DATASET_RAW_OPTICAL_IMAGE, ds.id)] *)
Definition alter_raw_optical_image (ds : Dataset) (v : option string * option pyval)
    : O unit :=
  λ s, (Ok tt,
        mkStore (match id ds with
                 | Some i => if bool_decide (is_Some (dataset_optical s !! i))
                             then <[i := v]> (dataset_optical s)
                             else dataset_optical s
                 | None => dataset_optical s
                 end)
                (optical_image s) (img_store_calls s) (info_log s)).

(** [db.alter(DEL_OPTICAL_IMAGE, ds.id)] *)
Definition delete_optical_image (ds : Dataset) : O unit :=
  λ s, (Ok tt,
        mkStore (dataset_optical s)
                (filter (λ row, ¬ of_dataset ds row) (optical_image s))
                (img_store_calls s) (info_log s)).

(** [db.insert(INS_OPTICAL_IMAGE, rows)] *)
Definition insert_optical_image (rows : list (string * option string * Z)) : O unit :=
  λ s, (Ok tt,
        mkStore (dataset_optical s) (optical_image s ++ rows)
                (img_store_calls s) (info_log s)).

(** [self._transform_scan(scan, transform_, dims, zoom)] *)
Definition _transform_scan (scan : image) (transform_ : pyval) (dims : Z * Z) (zoom : Z)
    : result image :=
  z <-? Zoom.effective_zoom zoom dims ;;
  warp scan transform_ dims z.

(** [self._add_raw_optical_image(ds, img_id, transform)] *)
Definition _add_raw_optical_image (ds : Dataset) (img_id : string) (transform : pyval)
    : O unit :=
  s <~~ get_store ;;
  _ <~~ match select_raw_optical_image s ds with
        | Some old_img_id =>
            if str_truthy old_img_id && bool_decide (old_img_id ≠ Some img_id)
            then img_delete "raw_optical_image" (default "" old_img_id)
            else oret tt
        | None => oret tt
        end ;;
  alter_raw_optical_image ds (Some img_id, Some transform).

(** [self._annotation_image_shape(ds)] up to the call that fetches the
    annotation image, for the rows [(iso_image_ids,)] that
    [self._db.select(IMG_URLS_BY_ID_SEL + ' LIMIT 1', ds.id)] returns (the
    column is a list of ids, or NULL): [[0][0][0]] takes the first id, then
    [ds.get_ion_img_storage_type] is looked up on the dataset.  The class
    [Dataset] defines no such attribute (and a data attribute cannot be
    called), so the fetch is never reached.  The two log lines are left
    out. *)
Definition _annotation_image_shape (rows : list (option (list (option string))))
    (ds : Dataset) : result (Z * Z) :=
  row <-? py_index rows 0 ;;
  iso_image_ids <-? match row with Some ids => Ok ids | None => Raise TypeError end ;;
  ion_img_id <-? py_index iso_image_ids 0 ;;
  get_ion_img_storage_type <-? getattr ds "get_ion_img_storage_type" ;;
  Raise TypeError.

(** [self._add_zoom_optical_images(ds, img_id, transform, zoom_levels)];
    [shape] is what [self._annotation_image_shape(ds)] returns or raises. *)
Definition _add_zoom_optical_images (shape : result (Z * Z)) (ds : Dataset)
    (img_id : string) (transform : pyval) (zoom_levels : list Z) : O unit :=
  dims <~~ olift shape ;;
  optical_img <~~ olift (get_image_by_id img_id) ;;
  rows <~~ omap_each (λ zoom,
             img <~~ olift (_transform_scan optical_img transform dims zoom) ;;
             buf <~~ olift (save_jpeg img) ;;
             scaled_img_id <~~ img_post "optical_image" buf ;;
             oret (scaled_img_id, id ds, zoom)) zoom_levels ;;
  s <~~ get_store ;;
  _ <~~ omap_each (img_delete "optical_image") (select_optical_image s ds) ;;
  _ <~~ delete_optical_image ds ;;
  insert_optical_image rows.

(** [self.add_optical_image(ds, img_id, transform, zoom_levels)] *)
Definition add_optical_image (shape : result (Z * Z)) (ds : Dataset)
    (img_id : string) (transform : pyval) (zoom_levels : list Z) : O unit :=
  _ <~~ logger_info "Adding optical image to '%s' dataset" ;;
  _ <~~ _add_raw_optical_image ds img_id transform ;;
  _add_zoom_optical_images shape ds img_id transform zoom_levels.

(** The default of [zoom_levels]. *)
Definition default_zoom_levels : list Z := [1; 2; 4; 8].

(** [self.del_optical_image(ds)] *)
Definition del_optical_image (ds : Dataset) : O unit :=
  _ <~~ logger_info "Deleting optical image to '%s' dataset" ;;
  s <~~ get_store ;;
  _ <~~ match select_raw_optical_image s ds with
        | Some raw_img_id =>
            if str_truthy raw_img_id
            then img_delete "raw_optical_image" (default "" raw_img_id)
            else oret tt
        | None => oret tt
        end ;;
  _ <~~ omap_each (img_delete "optical_image") (select_optical_image s ds) ;;
  _ <~~ alter_raw_optical_image ds (None, None) ;;
  delete_optical_image ds.

End optical.

Arguments img_call : clear implicits.
Arguments store : clear implicits.

End OpticalImage.

(** * Properties *)

(** ** Running the two monads *)

Lemma rmap_Ok_omap {A B} (f : A → result B) (g : A → option B) (l : list A) :
  Forall (λ x, ∃ y, f x = Ok y ∧ g x = Some y) l → rmap f l = Ok (omap g l).
Proof.
  induction 1 as [|x l (y & Hf & Hg) _ IH]; simpl; [done|].
  by rewrite Hf, Hg, IH.
Qed.

(** ** Python's equality *)

Lemma map_fold_andb {A} (g : string → A → bool) (m : gmap string A) :
  map_fold (λ k v acc, acc && g k v) true m = true
  ↔ map_Forall (λ k v, g k v = true) m.
Proof.
  apply (map_fold_weak_ind
           (λ r m, r = true ↔ map_Forall (λ k v, g k v = true) m)).
  - split; [intros _; apply map_Forall_empty|done].
  - intros i x m' r Hi IH. rewrite andb_true_iff, IH, map_Forall_insert by done.
    tauto.
Qed.

(** Two dicts are equal when they have the same keys and equal values. *)
Lemma dict_eq_lookup (a b : pydict) :
  dict_eq a b = true
  ↔ ∀ k, match a !! k, b !! k with
         | Some v, Some w => py_eq v w = true
         | None, None => True
         | _, _ => False
         end.
Proof.
  unfold dict_eq. simpl. rewrite andb_true_iff, Nat.eqb_eq, map_fold_andb.
  split.
  - intros [Hsize Hall].
    assert (dom a ⊆ dom b) as Hsub.
    { intros k [v Hk]%elem_of_dom. specialize (Hall k v Hk). simpl in Hall.
      apply elem_of_dom. destruct (b !! k); [done|discriminate]. }
    assert (dom a = dom b) as Hdom.
    { apply set_subseteq_size_eq; [done|]. rewrite !size_dom. lia. }
    intros k. destruct (a !! k) as [v|] eqn:Ha.
    + specialize (Hall k v Ha). simpl in Hall. by destruct (b !! k).
    + destruct (b !! k) as [w|] eqn:Hb; [|done].
      apply not_elem_of_dom in Ha. apply Ha. rewrite Hdom. by apply elem_of_dom.
  - intros Hrel. split.
    + rewrite <- !size_dom. f_equal. apply set_eq. intros k.
      rewrite !elem_of_dom. specialize (Hrel k).
      destruct (a !! k), (b !! k); try done; split; by intros [].
    + intros k v Hk. specialize (Hrel k). rewrite Hk in Hrel.
      by destruct (b !! k).
Qed.

Lemma list_eq_Forall2 (a b : list pyval) :
  py_eq (VList a) (VList b) = true ↔ Forall2 (λ v w, py_eq v w = true) a b.
Proof.
  simpl. revert b. induction a as [|v a IH]; intros [|w b]; simpl.
  - split; [constructor|done].
  - split; [done|inversion 1].
  - split; [done|inversion 1].
  - rewrite andb_true_iff, IH. split.
    + intros [? ?]. by constructor.
    + by inversion 1.
Qed.

Lemma dict_eq_delete (k : string) (a b : pydict) :
  dict_eq a b = true → dict_eq (delete k a) (delete k b) = true.
Proof.
  rewrite !dict_eq_lookup. intros Hrel k'.
  destruct (decide (k' = k)) as [->|Hne].
  - by rewrite !lookup_delete_eq.
  - rewrite !lookup_delete_ne by done. apply Hrel.
Qed.

Lemma dict_eq_get (k : string) (a b : pydict) :
  dict_eq a b = true →
  match a !! k, b !! k with
  | Some v, Some w => py_eq v w = true
  | None, None => True
  | _, _ => False
  end.
Proof. rewrite dict_eq_lookup. intros Hrel. apply Hrel. Qed.

(** *** Induction on values *)

Lemma pyval_ind' (P : pyval → Prop) :
  P VNone → (∀ b, P (VBool b)) → (∀ z, P (VInt z)) → (∀ f, P (VFloat f)) →
  (∀ s, P (VStr s)) →
  (∀ l, Forall P l → P (VList l)) →
  (∀ d, map_Forall (λ _, P) d → P (VDict d)) →
  ∀ v, P v.
Proof.
  intros HN HB HI HF HS HL HD v.
  remember (pyval_size v) as n eqn:Hn. revert v Hn.
  induction (lt_wf n) as [n _ IH]. intros [| | | | |l|d] ->; simpl in *; try done.
  - apply HL. clear HL HD.
    induction l as [|x l IHl]; [constructor|]. constructor.
    + eapply IH; [|done].
      change (sum_list (pyval_size <$> x :: l))
        with (pyval_size x + sum_list (pyval_size <$> l))%nat. lia.
    + apply IHl. intros m Hm v Hv. eapply IH; [|done].
      change (sum_list (pyval_size <$> x :: l))
        with (pyval_size x + sum_list (pyval_size <$> l))%nat. lia.
  - apply HD. clear HL HD. revert IH.
    apply (map_fold_weak_ind
             (λ r d, (∀ y, (y < S r)%nat → ∀ v, y = pyval_size v → P v)
                     → map_Forall (λ _, P) d)).
    + intros _. apply map_Forall_empty.
    + intros i x m r Hi IHm IH. apply map_Forall_insert; [done|]. split.
      * eapply IH; [|done]. lia.
      * apply IHm. intros y Hy v Hv. eapply IH; [|done]. lia.
Qed.

Lemma nan_free_dict (d : pydict) :
  nan_free (VDict d) = true ↔ map_Forall (λ _ v, nan_free v = true) d.
Proof. simpl. apply (map_fold_andb (λ _ v, nan_free v)). Qed.

Lemma nan_free_lookup (d : pydict) k v :
  nan_free (VDict d) = true → d !! k = Some v → nan_free v = true.
Proof. rewrite nan_free_dict. intros Hall Hk. by apply (Hall k v). Qed.

Lemma nan_free_delete (d : pydict) k :
  nan_free (VDict d) = true → nan_free (VDict (delete k d)) = true.
Proof.
  rewrite !nan_free_dict. intros Hall k' v Hk'.
  apply lookup_delete_Some in Hk' as [_ Hk']. by apply (Hall k' v).
Qed.

(** A value without NaN is equal to itself. *)
Lemma py_eq_refl (v : pyval) : nan_free v = true → py_eq v v = true.
Proof.
  induction v as [|b|z|f|s|l IH|d IH] using pyval_ind'; intros Hnf.
  - done.
  - simpl. apply Z.eqb_refl.
  - simpl. apply Z.eqb_refl.
  - simpl in *. unfold PrimFloat.is_nan in Hnf. by rewrite negb_involutive in Hnf.
  - simpl. by apply bool_decide_eq_true_2.
  - apply list_eq_Forall2. simpl in Hnf. rewrite forallb_forall in Hnf.
    induction IH as [|x l Hx _ IHl]; constructor.
    + apply Hx, Hnf. by left.
    + apply IHl. intros y Hy. apply Hnf. by right.
  - apply dict_eq_lookup. intros k. destruct (d !! k) as [v|] eqn:Hk; [|done].
    apply (IH k v Hk). by eapply nan_free_lookup.
Qed.

Lemma dict_eq_refl (d : pydict) : nan_free (VDict d) = true → dict_eq d d = true.
Proof. apply py_eq_refl. Qed.

(** *** Numbers *)

(** IEEE equality on the decoded doubles: the two zeros, the same
    infinity, or the same sign, mantissa and exponent. *)
Lemma SFeqb_true (x y : spec_float) :
  SFeqb x y = true
  ↔ match x, y with
    | S754_zero _, S754_zero _ => True
    | S754_infinity s1, S754_infinity s2 => s1 = s2
    | S754_finite s1 m1 e1, S754_finite s2 m2 e2 => s1 = s2 ∧ m1 = m2 ∧ e1 = e2
    | _, _ => False
    end.
Proof.
  destruct x as [s1|s1| |s1 m1 e1], y as [s2|s2| |s2 m2 e2];
    unfold SFeqb, SFcompare; try destruct s1; try destruct s2;
    try (split; [done|tauto]); try (split; [discriminate|by intros ?]);
    try (split; [discriminate|by intros (? & ? & ?)]).
  all: change (Pos.compare_cont Eq m1 m2) with (m1 ?= m2)%positive.
  all: destruct (Z.compare_spec e1 e2) as [He|He|He];
    destruct (Pos.compare_spec m1 m2) as [Hm|Hm|Hm]; simpl;
    split; try discriminate; try (intros (_ & ? & ?); subst; lia); try done.
  all: by subst.
Qed.

Lemma float_eqb_sym (f g : float) : PrimFloat.eqb f g = PrimFloat.eqb g f.
Proof.
  rewrite !FloatAxioms.eqb_spec.
  apply eq_true_iff_eq. rewrite !SFeqb_true.
  destruct (Prim2SF f), (Prim2SF g); try tauto; split; try done;
    by intros (? & ? & ?).
Qed.

Lemma float_eqb_trans (f g h : float) :
  PrimFloat.eqb f g = true → PrimFloat.eqb g h = true → PrimFloat.eqb f h = true.
Proof.
  rewrite !FloatAxioms.eqb_spec, !SFeqb_true.
  destruct (Prim2SF f), (Prim2SF g), (Prim2SF h); try tauto; try congruence.
  intros (? & ? & ?) (? & ? & ?). by subst.
Qed.

Lemma digits2_pos_bounds (m : positive) :
  2 ^ (Z.pos (digits2_pos m) - 1) ≤ Z.pos m < 2 ^ Z.pos (digits2_pos m).
Proof.
  induction m as [m IH|m IH|]; simpl.
  - rewrite Pos2Z.inj_succ.
    replace (Z.succ (Z.pos (digits2_pos m)) - 1) with (Z.succ (Z.pos (digits2_pos m) - 1)) by lia.
    rewrite !Z.pow_succ_r by lia. lia.
  - rewrite Pos2Z.inj_succ.
    replace (Z.succ (Z.pos (digits2_pos m)) - 1) with (Z.succ (Z.pos (digits2_pos m) - 1)) by lia.
    rewrite !Z.pow_succ_r by lia. lia.
  - done.
Qed.

(** The canonical form of a finite double [±m * 2^e]. *)
Lemma valid_finite (s : bool) (m : positive) (e : Z) :
  FloatAxioms.valid_binary (S754_finite s m e) = true →
  -1074 ≤ e ∧ Z.pos m < 2 ^ 53 ∧ (-1074 < e → 2 ^ 52 ≤ Z.pos m).
Proof.
  unfold SpecFloat.valid_binary, bounded, canonical_mantissa, fexp, emin, prec, emax.
  rewrite andb_true_iff, Z.eqb_eq. intros [Hc _].
  pose proof (digits2_pos_bounds m) as [Hlo Hhi].
  set (d := Z.pos (digits2_pos m)) in *.
  assert (0 < d) as Hd by (unfold d; lia).
  split; [lia|]. split.
  - eapply Z.lt_le_trans; [exact Hhi|]. apply Z.pow_le_mono_r; lia.
  - intros He. replace d with 53 in Hlo by lia. exact Hlo.
Qed.

Lemma int_eq_float_scaled (z : Z) (f : float) :
  int_eq_float z f = true ↔ scaled (Prim2SF f) = Some (z * 2 ^ 1074).
Proof.
  unfold int_eq_float, scaled.
  pose proof (FloatAxioms.Prim2SF_valid f) as Hv.
  destruct (Prim2SF f) as [s|s| |s m e]; try (split; [discriminate|done]); try done.
  - rewrite Z.eqb_eq. split; [by intros ->|]. intros [= Hz].
    assert (0 < 2 ^ 1074) by (by apply Z.pow_pos_nonneg). nia.
  - apply valid_finite in Hv as (He & _).
    set (a := if s then Z.neg m else Z.pos m).
    destruct (0 <=? e) eqn:Hs.
    + apply Z.leb_le in Hs. rewrite Z.eqb_eq, Z.pow_add_r by lia.
      assert (0 < 2 ^ 1074) by (by apply Z.pow_pos_nonneg).
      split; [intros ->; f_equal; ring|]. intros [= Hz].
      apply (Z.mul_reg_r _ _ (2 ^ 1074)); [lia|]. rewrite <- Hz. ring.
    + apply Z.leb_gt in Hs. rewrite Z.eqb_eq.
      replace (2 ^ 1074) with (2 ^ (- e) * 2 ^ (e + 1074))
        by (rewrite <- Z.pow_add_r by lia; f_equal; lia).
      assert (0 < 2 ^ (e + 1074)) by (apply Z.pow_pos_nonneg; lia).
      split; [intros <-; f_equal; ring|]. intros [= Hz].
      apply (Z.mul_reg_r _ _ (2 ^ (e + 1074))); [lia|]. rewrite Hz. ring.
Qed.

(** Two doubles with the same finite value are equal. *)
Lemma scaled_eqb (f g : float) (v : Z) :
  scaled (Prim2SF f) = Some v → scaled (Prim2SF g) = Some v →
  PrimFloat.eqb f g = true.
Proof.
  rewrite FloatAxioms.eqb_spec, SFeqb_true.
  pose proof (FloatAxioms.Prim2SF_valid f) as Hf.
  pose proof (FloatAxioms.Prim2SF_valid g) as Hg.
  destruct (Prim2SF f) as [s1|s1| |s1 m1 e1], (Prim2SF g) as [s2|s2| |s2 m2 e2];
    simpl; try discriminate; try done.
  - intros [= <-] [= Hz].
    assert (0 < 2 ^ (e2 + 1074)) by (apply valid_finite in Hg; apply Z.pow_pos_nonneg; lia).
    destruct s2; nia.
  - intros [= <-] [= Hz].
    assert (0 < 2 ^ (e1 + 1074)) by (apply valid_finite in Hf; apply Z.pow_pos_nonneg; lia).
    destruct s1; nia.
  - apply valid_finite in Hf as (He1 & Hhi1 & Hlo1).
    apply valid_finite in Hg as (He2 & Hhi2 & Hlo2).
    intros [= <-] [= Hz].
    assert (0 < 2 ^ (e1 + 1074)) as Hp1 by (apply Z.pow_pos_nonneg; lia).
    assert (0 < 2 ^ (e2 + 1074)) as Hp2 by (apply Z.pow_pos_nonneg; lia).
    assert (s1 = s2) as <- by (destruct s1, s2; try done; nia).
    assert (Z.pos m1 * 2 ^ (e1 + 1074) = Z.pos m2 * 2 ^ (e2 + 1074)) as Hm
      by (destruct s1; lia).
    clear Hz.
    destruct (Z.lt_trichotomy e1 e2) as [Hlt|[->|Hlt]].
    + exfalso. replace (e2 + 1074) with (e1 + 1074 + (e2 - e1)) in Hm by lia.
      rewrite (Z.pow_add_r 2 (e1 + 1074) (e2 - e1)) in Hm by lia.
      assert (2 ^ 1 ≤ 2 ^ (e2 - e1)) as Ht by (apply Z.pow_le_mono_r; lia).
      assert (2 ^ 52 ≤ Z.pos m2) as Hlo by (apply Hlo2; lia).
      assert (Z.pos m1 = Z.pos m2 * 2 ^ (e2 - e1)) as Hm1.
      { apply (Z.mul_reg_r _ _ (2 ^ (e1 + 1074))); [lia|]. rewrite Hm. ring. }
      change (2 ^ 1) with 2 in Ht. change (2 ^ 53) with (2 * 2 ^ 52) in Hhi1.
      revert Ht Hlo Hm1 Hhi1. generalize (2 ^ 52) (2 ^ (e2 - e1)). intros; nia.
    + split; [done|]. split; [|done].
      assert (Z.pos m1 = Z.pos m2) as Heq
        by (apply (Z.mul_reg_r _ _ (2 ^ (e2 + 1074))); [lia|exact Hm]).
      congruence.
    + exfalso. replace (e1 + 1074) with (e2 + 1074 + (e1 - e2)) in Hm by lia.
      rewrite (Z.pow_add_r 2 (e2 + 1074) (e1 - e2)) in Hm by lia.
      assert (2 ^ 1 ≤ 2 ^ (e1 - e2)) as Ht by (apply Z.pow_le_mono_r; lia).
      assert (2 ^ 52 ≤ Z.pos m1) as Hlo by (apply Hlo1; lia).
      assert (Z.pos m2 = Z.pos m1 * 2 ^ (e1 - e2)) as Hm2.
      { apply (Z.mul_reg_r _ _ (2 ^ (e2 + 1074))); [lia|]. rewrite <- Hm. ring. }
      change (2 ^ 1) with 2 in Ht. change (2 ^ 53) with (2 * 2 ^ 52) in Hhi2.
      revert Ht Hlo Hm2 Hhi2. generalize (2 ^ 52) (2 ^ (e1 - e2)). intros; nia.
Qed.

(** Equal doubles have the same value. *)
Lemma eqb_scaled (f g : float) :
  PrimFloat.eqb f g = true → scaled (Prim2SF f) = scaled (Prim2SF g).
Proof.
  rewrite FloatAxioms.eqb_spec, SFeqb_true.
  destruct (Prim2SF f), (Prim2SF g); simpl; try done.
  by intros (-> & -> & ->).
Qed.

Lemma number_eq_sym (a b : number) : number_eq a b = number_eq b a.
Proof.
  destruct a, b; simpl; [apply Z.eqb_sym|done|done|apply float_eqb_sym].
Qed.

Lemma number_eq_trans (a b c : number) :
  number_eq a b = true → number_eq b c = true → number_eq a c = true.
Proof.
  assert (0 < 2 ^ 1074) as Hpos by (by apply Z.pow_pos_nonneg).
  destruct a as [x|f], b as [y|g], c as [z|h]; simpl.
  - rewrite !Z.eqb_eq. congruence.
  - rewrite Z.eqb_eq. by intros ->.
  - rewrite !int_eq_float_scaled, Z.eqb_eq. intros Hx Hz.
    rewrite Hx in Hz. injection Hz as Hz. nia.
  - rewrite !int_eq_float_scaled. intros Hx Heq.
    apply eqb_scaled in Heq. congruence.
  - rewrite Z.eqb_eq. by intros ? ->.
  - rewrite !int_eq_float_scaled. intros Hf Hh. by eapply scaled_eqb.
  - rewrite !int_eq_float_scaled. intros Heq Hg.
    apply eqb_scaled in Heq. congruence.
  - apply float_eqb_trans.
Qed.

(** *** Hashable values: equality is symmetric and transitive *)

Lemma py_eq_hashable_sym (v w : pyval) :
  hashable v = true → hashable w = true → py_eq v w = py_eq w v.
Proof.
  destruct v, w; simpl; try done; intros _ _;
    try apply Z.eqb_sym; try apply float_eqb_sym.
  apply bool_decide_ext. by split.
Qed.

Lemma py_eq_number (v w : pyval) (a b : number) :
  py_number v = Some a → py_number w = Some b → py_eq v w = number_eq a b.
Proof. destruct v, w; simpl; try discriminate; by intros [= <-] [= <-]. Qed.

Lemma py_eq_hashable_trans (u v w : pyval) :
  hashable u = true → hashable v = true → hashable w = true →
  py_eq u v = true → py_eq v w = true → py_eq u w = true.
Proof.
  intros Hu Hv Hw.
  destruct (py_number u) as [a|] eqn:Ha, (py_number v) as [b|] eqn:Hb,
    (py_number w) as [c|] eqn:Hc.
  { rewrite (py_eq_number u v a b), (py_eq_number v w b c), (py_eq_number u w a c) by done.
    apply number_eq_trans. }
  all: destruct u as [|b1|z1|f1|s1| |], v as [|b2|z2|f2|s2| |], w as [|b3|z3|f3|s3| |];
    try discriminate; try done.
  all: simpl; rewrite ?bool_decide_eq_true; try congruence; try done.
Qed.

(** *** Sets of pairs *)

Lemma pair_eq_refl p : set_elem p → pair_eq p p = true.
Proof.
  intros (_ & _ & H1 & H2). unfold pair_eq. by rewrite !py_eq_refl.
Qed.

Lemma pair_eq_sym p q : set_elem p → set_elem q → pair_eq p q = pair_eq q p.
Proof.
  intros (Hp1 & Hp2 & _) (Hq1 & Hq2 & _). unfold pair_eq.
  by rewrite (py_eq_hashable_sym p.1 q.1), (py_eq_hashable_sym p.2 q.2).
Qed.

Lemma pair_eq_trans p q r :
  set_elem p → set_elem q → set_elem r →
  pair_eq p q = true → pair_eq q r = true → pair_eq p r = true.
Proof.
  intros (Hp1 & Hp2 & _) (Hq1 & Hq2 & _) (Hr1 & Hr2 & _). unfold pair_eq.
  rewrite !andb_true_iff. intros [H1 H2] [H3 H4]. split.
  - by apply (py_eq_hashable_trans p.1 q.1 r.1).
  - by apply (py_eq_hashable_trans p.2 q.2 r.2).
Qed.

Lemma set_mem_true p s : set_mem p s = true ↔ ∃ q, q ∈ s ∧ pair_eq p q = true.
Proof.
  unfold set_mem. rewrite existsb_exists. split.
  - intros (q & Hq & Hpq). exists q. by rewrite list_elem_of_In.
  - intros (q & Hq & Hpq). exists q. by rewrite <- list_elem_of_In.
Qed.

Lemma set_mem_false p s : set_mem p s = false ↔ ∀ q, q ∈ s → pair_eq p q = false.
Proof.
  rewrite <- not_true_iff_false, set_mem_true. split.
  - intros Hn q Hq. apply not_true_iff_false. intros Hpq. apply Hn. by exists q.
  - intros Hall (q & Hq & Hpq). rewrite (Hall q Hq) in Hpq. discriminate.
Qed.

(** The elements of [set_build s l] are those of [s] and [l], up to
    equality. *)
Lemma set_build_elem_of s l p : p ∈ set_build s l → p ∈ s ∨ p ∈ l.
Proof.
  revert s. induction l as [|q l IH]; intros s; simpl; [by left|].
  intros Hp. apply IH in Hp as [Hp|Hp]; [|right; by right].
  destruct (set_mem q s); [by left|].
  apply elem_of_app in Hp as [Hp|Hp]; [by left|].
  apply list_elem_of_singleton in Hp as ->. right. by left.
Qed.

Lemma set_build_mem s l p :
  Forall set_elem s → Forall set_elem l → set_elem p →
  set_mem p (set_build s l) = set_mem p s || set_mem p l.
Proof.
  intros Hs Hl Hp. revert s Hs. induction Hl as [|q l Hq Hl IH]; intros s Hs; simpl.
  - by rewrite orb_false_r.
  - destruct (set_mem q s) eqn:Hqs.
    + rewrite IH by done.
      destruct (set_mem p s) eqn:Hps; [done|]. simpl.
      destruct (pair_eq p q) eqn:Hpq; [|done]. exfalso.
      apply set_mem_true in Hqs as (r & Hr & Hqr).
      rewrite set_mem_false in Hps. specialize (Hps r Hr).
      rewrite Forall_forall in Hs.
      rewrite (pair_eq_trans p q r) in Hps; [discriminate|try done..].
      by apply Hs.
    + rewrite IH by (apply Forall_app; split; [done|by constructor]).
      unfold set_mem at 1. rewrite existsb_app. simpl.
      rewrite orb_false_r. fold (set_mem p s). by rewrite orb_assoc.
Qed.

Lemma py_set_mem l p :
  Forall set_elem l → set_elem p → set_mem p (py_set l) = set_mem p l.
Proof. intros Hl Hp. unfold py_set. by rewrite set_build_mem. Qed.

Lemma py_set_elem_of l p : p ∈ py_set l → p ∈ l.
Proof.
  intros Hp. apply set_build_elem_of in Hp as [Hp|Hp]; [|done].
  by apply not_elem_of_nil in Hp.
Qed.

(** [len(a - b) > 0] says that some element of [a] is not in [b]. *)
Lemma set_diff_nonempty (a b : list (pyval * pyval)) :
  Forall set_elem a → Forall set_elem b →
  (0 <? length (set_diff (py_set a) (py_set b)))%nat
  = existsb (λ p, negb (set_mem p b)) a.
Proof.
  intros Ha Hb. rewrite Forall_forall in Ha.
  apply eq_true_iff_eq. rewrite Nat.ltb_lt, existsb_exists. split.
  - intros Hlen. unfold set_diff in Hlen.
    destruct (filter _ (py_set a)) as [|p l] eqn:Hf; [simpl in Hlen; lia|].
    assert (p ∈ filter (λ p, set_mem p (py_set b) = false) (py_set a)) as Hp
      by (rewrite Hf; left).
    apply list_elem_of_filter in Hp as [Hpb Hpa]. apply py_set_elem_of in Hpa.
    exists p. split; [by apply list_elem_of_In|].
    rewrite py_set_mem in Hpb by (try done; by apply Ha). by rewrite Hpb.
  - intros (p & Hpa & Hpb). apply list_elem_of_In in Hpa.
    apply negb_true_iff in Hpb.
    assert (set_mem p (py_set a) = true) as Hin.
    { rewrite py_set_mem by (try apply Forall_forall; try done; by apply Ha).
      apply set_mem_true. exists p. split; [done|]. apply pair_eq_refl. by apply Ha. }
    apply set_mem_true in Hin as (q & Hq & Hpq).
    assert (q ∈ set_diff (py_set a) (py_set b)) as Hd.
    { apply list_elem_of_filter. split; [|done].
      assert (set_elem q) as Hsq by (apply Ha; by apply py_set_elem_of).
      rewrite py_set_mem by done.
      apply set_mem_false. intros r Hr. apply not_true_iff_false. intros Hqr.
      rewrite set_mem_false in Hpb. specialize (Hpb r Hr).
      rewrite Forall_forall in Hb.
      rewrite (pair_eq_trans p q r) in Hpb; [discriminate|try done..];
        [by apply Ha|by apply Hb]. }
    destruct (set_diff (py_set a) (py_set b)); [by apply not_elem_of_nil in Hd|].
    simpl. lia.
Qed.

(** ** ConfigDiff.compare_configs *)

Section compare_configs_facts.
Import ConfigDiff.

Lemma wf_selection_pair sel :
  wf_selection sel = true →
  ∃ p, (name <-? py_getitem sel "name" ;;
        version <-? py_get sel "version" VNone ;;
        set_add (name, version)) = Ok p
       ∧ selection_pair sel = Some p
       ∧ hashable p.1 = true ∧ hashable p.2 = true.
Proof.
  destruct sel as [| | | | | |d]; simpl; try discriminate.
  destruct (d !! "name") as [nm|] eqn:Hn; simpl; [|discriminate].
  intros Hh. exists (nm, default VNone (d !! "version")).
  unfold set_add; simpl. rewrite Hh.
  apply andb_true_iff in Hh as [? ?]. done.
Qed.

Lemma nan_free_selection_pair sel p :
  nan_free sel = true → selection_pair sel = Some p →
  nan_free p.1 = true ∧ nan_free p.2 = true.
Proof.
  destruct sel as [| | | | | |d]; simpl; try discriminate.
  intros Hnf. destruct (d !! "name") as [nm|] eqn:Hn; simpl; [|discriminate].
  intros [= <-]. simpl. split.
  - by apply (nan_free_lookup d "name").
  - destruct (d !! "version") as [v|] eqn:Hv; [|done].
    by apply (nan_free_lookup d "version").
Qed.

(** The pairs of a config of the data model can be set elements. *)
Lemma wf_config_selections (c : pydict) :
  wf_config c = true → Forall set_elem (selections c).
Proof.
  unfold wf_config, selections. rewrite andb_true_iff. intros [Hnf Hwf].
  destruct (c !! "databases") as [[| | | | |l|]|] eqn:Hc; try discriminate;
    [|constructor].
  pose proof (nan_free_lookup c _ _ Hnf Hc) as Hl. simpl in Hl.
  rewrite forallb_forall in Hwf. rewrite forallb_forall in Hl.
  apply Forall_forall. intros p Hp.
  apply list_elem_of_omap in Hp as (sel & Hsel & Hp).
  apply list_elem_of_In in Hsel.
  destruct (wf_selection_pair sel (Hwf sel Hsel)) as (p' & _ & Hp' & Hh1 & Hh2).
  assert (p' = p) as -> by congruence.
  destruct (nan_free_selection_pair sel p (Hl sel Hsel) Hp) as [? ?].
  by repeat split.
Qed.

Lemma mol_dbs_to_set_wf (c : pydict) :
  wf_config c = true →
  mol_dbs_to_set (default (VList []) (c !! "databases")) = Ok (py_set (selections c)).
Proof.
  unfold wf_config, selections, mol_dbs_to_set. rewrite andb_true_iff. intros [_ Hwf].
  destruct (c !! "databases") as [[| | | | |l|]|] eqn:Hc; simpl; try discriminate; [|done].
  rewrite (rmap_Ok_omap _ selection_pair); [done|].
  apply Forall_forall. intros sel Hsel.
  destruct (wf_selection_pair sel) as (p & ? & ? & _); [|by exists p].
  rewrite forallb_forall in Hwf. apply Hwf. by apply list_elem_of_In.
Qed.

(** Equal selections give equal pairs. *)
Lemma selection_pair_eq sel_o sel_n p :
  py_eq sel_o sel_n = true → wf_selection sel_o = true → wf_selection sel_n = true →
  selection_pair sel_n = Some p →
  ∃ q, selection_pair sel_o = Some q ∧ pair_eq p q = true.
Proof.
  intros Heq Hwo Hwn Hp.
  destruct sel_o as [| | | | | |d_o]; try discriminate.
  destruct sel_n as [| | | | | |d_n]; try discriminate.
  change (dict_eq d_o d_n = true) in Heq.
  pose proof (dict_eq_get "name" _ _ Heq) as Hname.
  pose proof (dict_eq_get "version" _ _ Heq) as Hver.
  simpl in *.
  destruct (d_o !! "name") as [no|]; [|discriminate].
  destruct (d_n !! "name") as [nn|]; [|done].
  simpl in *. injection Hp as <-.
  exists (no, default VNone (d_o !! "version")). split; [done|].
  apply andb_true_iff in Hwo as [Ho1 Ho2]. apply andb_true_iff in Hwn as [Hn1 Hn2].
  unfold pair_eq. simpl. apply andb_true_iff. split.
  - by rewrite py_eq_hashable_sym.
  - rewrite py_eq_hashable_sym by done.
    destruct (d_o !! "version"), (d_n !! "version"); done.
Qed.

Lemma selections_eq (lo ln : list pyval) p :
  Forall2 (λ v w, py_eq v w = true) lo ln →
  forallb wf_selection lo = true → forallb wf_selection ln = true →
  p ∈ omap selection_pair ln → set_mem p (omap selection_pair lo) = true.
Proof.
  induction 1 as [|so sn lo ln Heq _ IH]; simpl; [by intros _ _ ?%not_elem_of_nil|].
  rewrite !andb_true_iff. intros [Hwo Hlo] [Hwn Hln] Hp.
  destruct (wf_selection_pair sn Hwn) as (pn & _ & Hpn & _).
  destruct (selection_pair_eq so sn pn Heq Hwo Hwn Hpn) as (po & Hpo & Hpq).
  rewrite Hpn in Hp. rewrite Hpo. simpl.
  apply elem_of_cons in Hp as [->|Hp].
  - by rewrite Hpq.
  - apply orb_true_iff. right. exact (IH Hlo Hln Hp).
Qed.

(** Equal configs have no new pair. *)
Lemma dict_eq_selections (o n : pydict) :
  wf_config o = true → wf_config n = true → dict_eq o n = true →
  existsb (λ p, negb (set_mem p (selections o))) (selections n) = false.
Proof.
  intros Hwo Hwn Heq. apply not_true_iff_false. rewrite existsb_exists.
  intros (p & Hp & Hnot). apply negb_true_iff in Hnot.
  apply list_elem_of_In in Hp.
  pose proof (dict_eq_get "databases" _ _ Heq) as Hdb.
  unfold wf_config in Hwo, Hwn. apply andb_true_iff in Hwo as [_ Hwo].
  apply andb_true_iff in Hwn as [_ Hwn].
  unfold selections in *.
  destruct (o !! "databases") as [vo|], (n !! "databases") as [vn|]; try done;
    [|by apply not_elem_of_nil in Hp].
  destruct vo as [| | | | |lo|]; try discriminate.
  destruct vn as [| | | | |ln|]; try discriminate.
  apply list_eq_Forall2 in Hdb.
  rewrite (selections_eq lo ln p) in Hnot by done. discriminate.
Qed.

Lemma compare_configs_val_same (c : pydict) :
  nan_free (VDict c) = true → compare_configs_val c c = Ok EQUAL.
Proof. intros Hnf. unfold compare_configs_val. by rewrite dict_eq_refl. Qed.

Lemma compare_configs_val_eq (o n : pydict) :
  dict_eq o n = true → compare_configs_val o n = Ok EQUAL.
Proof. intros Heq. unfold compare_configs_val. by rewrite Heq. Qed.

Lemma compare_configs_val_ref (old new : pydict) :
  wf_config old = true → wf_config new = true →
  compare_configs_val old new = Ok (classify_ref old new).
Proof.
  intros Ho Hn. unfold compare_configs_val, classify_ref.
  destruct (dict_eq old new) eqn:Heq; simpl.
  - rewrite (dict_eq_delete _ _ _ Heq). by rewrite dict_eq_selections.
  - destruct (dict_eq (delete "databases" old) (delete "databases" new)); simpl; [|done].
    rewrite (mol_dbs_to_set_wf _ Ho), (mol_dbs_to_set_wf _ Hn). simpl.
    rewrite set_diff_nonempty by (by apply wf_config_selections).
    by destruct (existsb _ _).
Qed.

Lemma classify_ref_same (c : pydict) : wf_config c = true → classify_ref c c = EQUAL.
Proof.
  intros Hwf. pose proof (compare_configs_val_ref c c Hwf Hwf) as Href.
  rewrite compare_configs_val_same in Href; [congruence|].
  unfold wf_config in Hwf. by apply andb_true_iff in Hwf as [? _].
Qed.

Lemma compare_configs_run (h : heap) old new o n :
  h !! old = Some o → h !! new = Some n →
  compare_configs old new h
  = if decide (old = new) then (Ok EQUAL, h)
    else (compare_configs_val o n, if dict_eq o n then h else heap_after h o n).
Proof.
  intros Ho Hn.
  unfold compare_configs, compare_configs_val, heap_after.
  unfold dict_ne at 1. unfold bind at 1. unfold bind at 1. unfold deref at 1. rewrite Ho.
  unfold bind at 1. unfold deref at 1. rewrite Hn. unfold ret at 1.
  destruct (decide (old = new)) as [Heq|Hne]; [done|].
  destruct (dict_eq o n) eqn:Hon; [done|]. simpl.
  set (l1 := fresh (dom h)).
  set (h1 := <[l1 := o]> h).
  set (l2 := fresh (dom h1)).
  assert (h !! l1 = None) as Hl1.
  { apply not_elem_of_dom. apply is_fresh. }
  assert (h1 !! l2 = None) as Hl2.
  { apply not_elem_of_dom. apply is_fresh. }
  assert (l1 ≠ old) as Hl1o by (intros ->; congruence).
  assert (l1 ≠ new) as Hl1n by (intros ->; congruence).
  assert (l2 ≠ l1) as Hl21.
  { intros Heq. rewrite Heq in Hl2. unfold h1 in Hl2. by rewrite lookup_insert_eq in Hl2. }
  assert (l2 ≠ old) as Hl2o.
  { intros Heq. rewrite Heq in Hl2. unfold h1 in Hl2.
    rewrite lookup_insert_ne in Hl2 by done. congruence. }
  assert (l2 ≠ new) as Hl2n.
  { intros Heq. rewrite Heq in Hl2. unfold h1 in Hl2.
    rewrite lookup_insert_ne in Hl2 by done. congruence. }
  unfold bind, dict_copy, dict_pop, dict_ne, dict_get, deref, ret, lift, bind.
  rewrite Ho. fold l1. fold h1.
  replace (h1 !! new) with (Some n) by (unfold h1; by rewrite lookup_insert_ne).
  fold l2.
  rewrite (lookup_insert_ne _ l2 l1) by done. unfold h1 at 1. rewrite lookup_insert_eq.
  rewrite (lookup_insert_ne _ l1 l2) by done. rewrite lookup_insert_eq.
  rewrite lookup_insert_ne by done. rewrite lookup_insert_eq.
  rewrite lookup_insert_eq.
  rewrite (decide_False (P := l1 = l2)) by done.
  destruct (dict_eq (delete "databases" o) (delete "databases" n)); simpl; [|done].
  rewrite !lookup_insert_ne by done.
  unfold h1. rewrite !lookup_insert_ne by done. rewrite Ho.
  destruct (mol_dbs_to_set (default (VList []) (o !! "databases"))) as [so|e]; [|done].
  rewrite !lookup_insert_ne by done. rewrite Hn.
  destruct (mol_dbs_to_set (default (VList []) (n !! "databases"))) as [sn|e]; [|done].
  simpl. by destruct (0 <? length (set_diff sn so))%nat.
Qed.

(** The two examples of the specification, and a removed database, which
    is not detected. *)
Example compare_configs_new_mol_db :
  compare_configs_val Examples.conf_A_X Examples.conf_A_XY = Ok NEW_MOL_DB.
Proof. vm_compute. reflexivity. Qed.

Example compare_configs_instr_params_diff :
  compare_configs_val Examples.conf_A_X Examples.conf_B_X = Ok INSTR_PARAMS_DIFF.
Proof. vm_compute. reflexivity. Qed.

Example compare_configs_removed_mol_db :
  compare_configs_val Examples.conf_A_XY Examples.conf_A_X = Ok EQUAL.
Proof. vm_compute. reflexivity. Qed.

(** Numbers are compared by value: [1], [True] and [1.0] are the same
    parameter, and a selection repeated with its version written [1.0] is
    not a new one. *)
Example compare_configs_numbers :
  compare_configs_val Examples.conf_sigma_int Examples.conf_sigma_bool = Ok EQUAL
  ∧ compare_configs_val Examples.conf_sigma_int Examples.conf_sigma_float = Ok EQUAL
  ∧ compare_configs_val Examples.conf_sigma_float Examples.conf_sigma_half
    = Ok INSTR_PARAMS_DIFF
  ∧ compare_configs_val
      (<["databases" := VList [Examples.db_X1]]> ∅)
      (<["databases" :=
           VList [Examples.db_X1;
                  VDict (<["name" := VStr "X"]> (<["version" := VFloat 1%float]> ∅))]]> ∅)
    = Ok EQUAL.
Proof. repeat split; vm_compute; reflexivity. Qed.

(** A selection without a name makes the comparison raise, unless the two
    configs are equal. *)
Example compare_configs_nameless_selection :
  compare_configs_val (<["databases" := VList [VDict ∅]]> ∅) (<["databases" := VList []]> ∅)
  = Raise KeyError
  ∧ compare_configs_val (<["databases" := VList [VDict ∅]]> ∅)
      (<["databases" := VList [VDict ∅]]> ∅) = Ok EQUAL.
Proof. split; vm_compute; reflexivity. Qed.

Lemma heap_after_frame (h : heap) o n l d :
  h !! l = Some d → heap_after h o n !! l = Some d.
Proof.
  intros Hl. unfold heap_after.
  set (l1 := fresh (dom h)).
  set (h1 := <[l1 := o]> h).
  set (l2 := fresh (dom h1)).
  assert (h !! l1 = None) as Hl1.
  { apply not_elem_of_dom. apply is_fresh. }
  assert (h1 !! l2 = None) as Hl2.
  { apply not_elem_of_dom. apply is_fresh. }
  assert (l1 ≠ l) as Hne1 by (intros ->; congruence).
  assert (l2 ≠ l) as Hne2.
  { intros Heq. rewrite Heq in Hl2. unfold h1 in Hl2.
    rewrite lookup_insert_ne in Hl2 by done. congruence. }
  rewrite !lookup_insert_ne by done. unfold h1. by rewrite lookup_insert_ne.
Qed.

Lemma compare_configs_dangling (h : heap) old new :
  h !! old = None ∨ h !! new = None → (compare_configs old new h).2 = h.
Proof.
  intros Hd. unfold compare_configs, dict_ne, bind, deref.
  destruct (h !! old) as [o|]; [|done].
  destruct Hd as [Hd|Hd]; [done|]. by rewrite Hd.
Qed.

End compare_configs_facts.

Section compare_configs_claims.
Import ConfigDiff.

(** C2: on configs of the data model, [compare_configs] returns what the
  reference definition of the specification returns: INSTR_PARAMS_DIFF when
  the configs differ once the [databases] key is stripped, otherwise
  NEW_MOL_DB when some (name, version) pair of the new [databases] list is
  absent from the old one, otherwise EQUAL; to differ and to be absent are
  meant with Python's [==], which compares numbers by value.  It returns
  EQUAL on any config compared with itself (the same object, whatever it
  holds), and on two objects with equal contents; and its result does not
  depend on the order in which the keys of the two dicts were given.  (It
  is a function of the two dicts, hence deterministic.) *)
Theorem compare_configs_is_classify :
(∀ (h : heap) old new (o n : pydict),
   h !! old = Some o → h !! new = Some n →
   wf_config o = true → wf_config n = true →
   (compare_configs old new h).1 = Ok (classify_ref o n))
∧ (∀ (h : heap) x (c : pydict),
     h !! x = Some c → (compare_configs x x h).1 = Ok EQUAL)
∧ (∀ (h : heap) x y (c c' : pydict),
     h !! x = Some c → h !! y = Some c' →
     dict_eq c c' = true ∨ (c = c' ∧ nan_free (VDict c) = true) →
     (compare_configs x y h).1 = Ok EQUAL)
∧ (∀ (h : heap) old new (oks oks' nks nks' : list (string * pyval)),
     NoDup oks.*1 → NoDup nks.*1 → oks ≡ₚ oks' → nks ≡ₚ nks' →
     (compare_configs old new
        (<[old := list_to_map oks]> (<[new := list_to_map nks]> h))).1
     = (compare_configs old new
          (<[old := list_to_map oks']> (<[new := list_to_map nks']> h))).1).
Proof.
split; [|split; [|split]].
- intros h old new o n Ho Hn Hwo Hwn.
  rewrite (compare_configs_run h old new o n Ho Hn).
  destruct (decide (old = new)) as [->|Hne]; simpl.
  + assert (o = n) as -> by congruence. by rewrite classify_ref_same.
  + by apply compare_configs_val_ref.
- intros h x c Hx.
  rewrite (compare_configs_run h x x c c Hx Hx).
  by rewrite decide_True.
- intros h x y c c' Hx Hy Heq.
  rewrite (compare_configs_run h x y c c' Hx Hy).
  destruct (decide (x = y)); [done|]. simpl.
  apply compare_configs_val_eq.
  destruct Heq as [Heq|[<- Hnf]]; [done|by apply dict_eq_refl].
- intros h old new oks oks' nks nks' Hdo Hdn Hpo Hpn.
  assert ((list_to_map oks : pydict) = list_to_map oks') as -> by by apply list_to_map_proper.
  assert ((list_to_map nks : pydict) = list_to_map nks') as -> by by apply list_to_map_proper.
  done.
Qed.

Lemma compare_configs_is_classify_witness :
(compare_configs 1%positive 2%positive Examples.heap_1).1 = Ok NEW_MOL_DB.
Proof.
destruct compare_configs_is_classify as [Href _].
rewrite (Href Examples.heap_1 1%positive 2%positive Examples.conf_A_X Examples.conf_A_XY).
- vm_compute. reflexivity.
- vm_compute. reflexivity.
- vm_compute. reflexivity.
- vm_compute. reflexivity.
- vm_compute. reflexivity.
Defined.

(** C10: [compare_configs] leaves both of its arguments as they were: the
  [databases] key is popped from two copies, which are new objects, so
  after the call (whether it returns or raises) the dict objects [old] and
  [new], and every other object that existed, hold what they held.  The
  copies are made exactly when the two arguments are two objects with
  unequal contents; otherwise the heap is as it was. *)
Theorem compare_configs_keeps_arguments (h : heap) old new (o n : pydict) :
h !! old = Some o → h !! new = Some n →
let h' := (compare_configs old new h).2 in
h' !! old = Some o ∧ h' !! new = Some n
∧ (∀ l (d : pydict), h !! l = Some d → h' !! l = Some d)
∧ (old ≠ new → dict_eq o n = false →
   ∃ old_rest new_rest,
     h !! old_rest = None ∧ h !! new_rest = None ∧ old_rest ≠ new_rest
     ∧ h' !! old_rest = Some (delete "databases" o)
     ∧ h' !! new_rest = Some (delete "databases" n))
∧ (old = new ∨ dict_eq o n = true → h' = h).
Proof.
intros Ho Hn. simpl.
rewrite (compare_configs_run h old new o n Ho Hn).
destruct (decide (old = new)) as [Heq|Hne]; simpl.
{ split; [done|]. split; [done|]. split; [done|]. split; [by intros ?|done]. }
destruct (dict_eq o n) eqn:Hon.
{ split; [done|]. split; [done|]. split; [done|]. split; [by intros ? ?|done]. }
split; [by apply heap_after_frame|].
split; [by apply heap_after_frame|].
split; [intros l d Hl; by apply heap_after_frame|].
split; [|by intros [?|?]].
intros _ _. unfold heap_after.
set (l1 := fresh (dom h)).
set (h1 := <[l1 := o]> h).
set (l2 := fresh (dom h1)).
assert (h !! l1 = None) as Hl1.
{ apply not_elem_of_dom. apply is_fresh. }
assert (h1 !! l2 = None) as Hl2.
{ apply not_elem_of_dom. apply is_fresh. }
assert (l2 ≠ l1) as Hl21.
{ intros Heq. rewrite Heq in Hl2. unfold h1 in Hl2. by rewrite lookup_insert_eq in Hl2. }
exists l1, l2. split; [done|]. split.
{ unfold h1 in Hl2. by rewrite lookup_insert_ne in Hl2. }
split; [done|]. split.
+ rewrite lookup_insert_ne by done. by rewrite lookup_insert_eq.
+ by rewrite lookup_insert_eq.
Qed.

Lemma compare_configs_keeps_arguments_witness :
(compare_configs 1%positive 2%positive Examples.heap_1).2 !! 1%positive = Some Examples.conf_A_X
∧ (compare_configs 1%positive 2%positive Examples.heap_1).2 !! 2%positive = Some Examples.conf_A_XY.
Proof.
assert (Examples.heap_1 !! 1%positive = Some Examples.conf_A_X) as H1
  by (vm_compute; reflexivity).
assert (Examples.heap_1 !! 2%positive = Some Examples.conf_A_XY) as H2
  by (vm_compute; reflexivity).
destruct (compare_configs_keeps_arguments Examples.heap_1 1%positive 2%positive _ _ H1 H2)
  as (Ho & Hn & _).
split; assumption.
Defined.

End compare_configs_claims.

(** ** Dataset.save and the queued dispatcher *)

Lemma save_run (sq : bool) (ds : Dataset) (w : World) :
  save sq (ds, w)
  = if save_precondition ds then (Ok tt, (ds, world_after_save sq ds w))
    else (Raise AssertionError, (ds, w)).
Proof.
  unfold save, abind, get_ds, get_world, araise. simpl.
  destruct (save_precondition ds); simpl; [|done].
  unfold world_after_save.
  destruct (is_stored w ds), sq; reflexivity.
Qed.

Lemma set_status_run (sq : bool) (s : option string) (ds : Dataset) (w : World) :
  set_status sq s (ds, w) = save sq (Dataset_with_status ds s, w).
Proof. reflexivity. Qed.

Lemma post_sm_msg_run (self : SMapiDatasetManager) (action : string) (priority : Z)
    (kwargs : pydict) (ds : Dataset) (w : World) :
  SMapi._post_sm_msg self action priority kwargs (ds, w)
  = let queued := Dataset_with_status ds (Some DatasetStatus.QUEUED) in
    if save_precondition queued then
      let w1 := world_after_save (status_queue self) queued w in
      if bool_decide (mode self = "queue") then
        match to_queue_message queued with
        | Ok msg =>
            if action_queue self
            then (Ok tt, (queued, world_after_publish (action_message action kwargs msg) priority w1))
            else (Raise AttributeError, (queued, w1))
        | Raise e => (Raise e, (queued, w1))
        end
      else (Ok tt, (queued, w1))
    else (Raise AssertionError, (queued, w)).
Proof.
  unfold SMapi._post_sm_msg. unfold abind at 1. rewrite set_status_run, save_run.
  simpl. destruct (save_precondition _); [|done].
  destruct (bool_decide (mode self = "queue")); [|done].
  unfold abind, get_ds, alift. simpl.
  destruct (to_queue_message _) as [msg|e]; [|done].
  destruct (action_queue self); reflexivity.
Qed.

(** The keys of a dataset's queue message. *)
Lemma to_queue_message_keys (ds : Dataset) (msg : pydict) (k : string) :
  to_queue_message ds = Ok msg →
  k ≠ "ds_id" → k ≠ "ds_name" → k ≠ "input_path" → k ≠ "user_email" →
  msg !! k = None.
Proof.
  unfold to_queue_message. intros Hm H1 H2 H3 H4.
  destruct (py_get (metadata ds) "Submitted_By" (VDict ∅)) as [sb|]; simpl in Hm; [|done].
  destruct (py_get sb "Submitter" (VDict ∅)) as [su|]; simpl in Hm; [|done].
  destruct (py_get su "Email" VNone) as [em|]; simpl in Hm; [|done].
  destruct (truthy em).
  - destruct (py_lower em) as [e|]; simpl in Hm; [|done].
    injection Hm as <-. by rewrite !lookup_insert_ne, lookup_empty by done.
  - injection Hm as <-. by rewrite !lookup_insert_ne, lookup_empty by done.
Qed.

Lemma action_message_action (action : string) (kwargs msg : pydict) :
  kwargs !! "action" = None →
  action_message action kwargs msg !! "action" = Some (VStr action).
Proof.
  intros Hk. unfold action_message.
  rewrite lookup_union_r by done. by rewrite lookup_insert_eq.
Qed.

Lemma action_message_kwarg (action : string) (kwargs msg : pydict) k v :
  kwargs !! k = Some v → action_message action kwargs msg !! k = Some v.
Proof. intros Hk. unfold action_message. by apply lookup_union_Some_l. Qed.

Lemma action_message_other (action : string) (ds : Dataset) (msg : pydict) k :
  to_queue_message ds = Ok msg →
  k ≠ "ds_id" → k ≠ "ds_name" → k ≠ "input_path" → k ≠ "user_email" → k ≠ "action" →
  action_message action ∅ msg !! k = None.
Proof.
  intros Hm H1 H2 H3 H4 H5. unfold action_message.
  rewrite (left_id_L ∅ (∪)). rewrite lookup_insert_ne by done.
  by apply (to_queue_message_keys ds).
Qed.

(** The message of a complete dataset: the e-mail address is lower-cased. *)
Example to_queue_message_ds_1 :
  to_queue_message Examples.ds_1
  = Ok (<["ds_id" := VStr "ds1"]> (<["ds_name" := VStr "first"]>
       (<["input_path" := VStr "s3://in/ds1"]> (<["user_email" := VStr "ann@lab.org"]> ∅)))).
Proof. vm_compute. reflexivity. Qed.

(** Without a metadata document the message cannot be built. *)
Example to_queue_message_no_metadata :
  to_queue_message (Dataset_with_metadata Examples.ds_1 VNone) = Raise AttributeError.
Proof. reflexivity. Qed.

(** What a call of [_post_sm_msg] adds to the action queue: nothing, or one
    message at the priority it was given. *)
Lemma post_sm_msg_published (self : SMapiDatasetManager) (action : string) (priority : Z)
    (kwargs : pydict) (ds : Dataset) (w : World) :
  let r := SMapi._post_sm_msg self action priority kwargs (ds, w) in
  (action_published r.2.2 = action_published w ∧ (mode self = "queue" → r.1 ≠ Ok tt))
  ∨ (∃ msg, to_queue_message (Dataset_with_status ds (Some DatasetStatus.QUEUED)) = Ok msg
       ∧ action_published r.2.2 = (action_message action kwargs msg, priority) :: action_published w
       ∧ r.1 = Ok tt ∧ mode self = "queue").
Proof.
  simpl. rewrite post_sm_msg_run. simpl.
  destruct (save_precondition _); [|left; split; [done|by intros _]].
  case_bool_decide as Hm; [|left; split; [done|by intros ?]].
  destruct (to_queue_message _) as [msg|e]; [|left; split; [done|by intros _]].
  destruct (action_queue self); [|left; split; [done|by intros _]].
  right. exists msg. done.
Qed.

(** The assertion of [save], field by field. *)
Lemma save_precondition_fields (ds : Dataset) :
  save_precondition ds = true ↔
    str_truthy (id ds) = true ∧ str_truthy (name ds) = true
    ∧ str_truthy (input_path ds) = true ∧ is_Some (upload_dt ds)
    ∧ (∃ c, config ds = Some c ∧ c ≠ ∅)
    ∧ str_truthy (status ds) = true
    ∧ is_public ds ≠ None
    ∧ (∃ l, mol_dbs ds = Some l ∧ l ≠ []).
Proof.
  unfold save_precondition. rewrite !andb_true_iff, !bool_decide_eq_true.
  split.
  - intros [[[[[[[H1 H2] H3] H4] H5] H6] H7] H8].
    repeat split; try done.
    + destruct (config ds) as [c|]; [|done]. exists c. split; [done|].
      apply negb_true_iff, bool_decide_eq_false in H5. done.
    + destruct (mol_dbs ds) as [l|]; [|done]. exists l. split; [done|].
      apply negb_true_iff, bool_decide_eq_false in H8. done.
  - intros (H1 & H2 & H3 & H4 & (c & Hc & Hc') & H6 & H7 & (l & Hl & Hl')).
    rewrite Hc, Hl. repeat split; try done.
    + by apply negb_true_iff, bool_decide_eq_false.
    + by apply negb_true_iff, bool_decide_eq_false.
Qed.

(** C8, as the code has it: [save] persists the record exactly when [id],
    [name], [input_path], [config], [status] and [mol_dbs] are there and not
    empty, [upload_dt] is there and [is_public] is not [None]; [status] is
    among the required fields and [metadata] is not (any metadata, [None]
    too, is saved).  When the assertion holds the row is written under the
    id; when it fails the call raises AssertionError and nothing is written
    or published. *)
Theorem save_requires (sq : bool) (ds : Dataset) (w : World) :
  ((save sq (ds, w)).1 = Ok tt ↔
     str_truthy (id ds) = true ∧ str_truthy (name ds) = true
     ∧ str_truthy (input_path ds) = true ∧ is_Some (upload_dt ds)
     ∧ (∃ c, config ds = Some c ∧ c ≠ ∅)
     ∧ str_truthy (status ds) = true
     ∧ is_public ds ≠ None
     ∧ (∃ l, mol_dbs ds = Some l ∧ l ≠ []))
  ∧ ((save sq (ds, w)).1 = Ok tt →
       ∃ i, id ds = Some i ∧ dataset_table (save sq (ds, w)).2.2 !! i = Some ds)
  ∧ ((save sq (ds, w)).1 ≠ Ok tt → save sq (ds, w) = (Raise AssertionError, (ds, w)))
  ∧ (∀ m, (save sq (Dataset_with_metadata ds m, w)).1 = (save sq (ds, w)).1).
Proof.
  rewrite <- save_precondition_fields. rewrite !save_run.
  split; [|split; [|split]].
  - destruct (save_precondition ds); simpl; split; congruence.
  - destruct (save_precondition ds) eqn:Hp; simpl; [|congruence].
    intros _. apply save_precondition_fields in Hp as (Hid & _).
    destruct (id ds) as [i|]; [|done]. exists i. split; [done|].
    by rewrite lookup_insert_eq.
  - destruct (save_precondition ds); simpl; [congruence|done].
  - intros m. rewrite save_run.
    replace (save_precondition (Dataset_with_metadata ds m)) with (save_precondition ds)
      by reflexivity.
    by destruct (save_precondition ds).
Qed.

Lemma save_requires_witness :
  (save true (Examples.ds_1, Examples.world_0)).1 = Ok tt
  ∧ dataset_table (save true (Examples.ds_1, Examples.world_0)).2.2 !! "ds1"
    = Some Examples.ds_1.
Proof.
  destruct (save_requires true Examples.ds_1 Examples.world_0) as (Hiff & Hrow & _).
  assert ((save true (Examples.ds_1, Examples.world_0)).1 = Ok tt) as Hok.
  { apply Hiff. apply save_precondition_fields. vm_compute. reflexivity. }
  split; [exact Hok|].
  destruct (Hrow Hok) as (i & Hi & Ht). injection Hi as <-. exact Ht.
Defined.

(** C8 as stated fails both ways: a record with every field but [status] is
    refused, and a record whose [metadata] is [None] is saved. *)
Lemma save_needs_status_not_metadata :
  (all_but_status_present (Dataset_with_status Examples.ds_1 None) = true
   ∧ (save true (Dataset_with_status Examples.ds_1 None, Examples.world_0)).1
     = Raise AssertionError)
  ∧ (all_but_status_present (Dataset_with_metadata Examples.ds_1 VNone) = false
     ∧ (save true (Dataset_with_metadata Examples.ds_1 VNone, Examples.world_0)).1 = Ok tt).
Proof. vm_compute. repeat split. Qed.

Lemma add_run (self : SMapiDatasetManager) (del_first : bool) (priority : Z)
    (ds : Dataset) (w : World) :
  SMapi.add self del_first priority (ds, w)
  = if negb del_first && is_stored w ds then (Raise DSIDExists, (ds, w))
    else SMapi._post_sm_msg self DatasetAction.ADD priority
           (<["del_first" := VBool del_first]> ∅) (ds, w).
Proof.
  unfold SMapi.add, abind, get_ds, get_world, araise. simpl.
  by destruct (negb del_first && is_stored w ds).
Qed.

(** C4, as the code has it: an ADD for a stored id without [del_first] fails
    with DSIDExists and changes nothing (no message, no write).  Any other
    ADD whose record, once its status is QUEUED, passes the assertion of
    [save] persists the record with status QUEUED; in mode 'queue', with an
    action queue and a metadata document from which the queue message can be
    built, it publishes one message, at the caller's priority, that carries
    the action ADD and [del_first]; in any other mode it publishes none. *)
Theorem add_dispatch (self : SMapiDatasetManager) (del_first : bool) (priority : Z)
    (ds : Dataset) (w : World) :
  let queued := Dataset_with_status ds (Some DatasetStatus.QUEUED) in
  let r := SMapi.add self del_first priority (ds, w) in
  (del_first = false → is_stored w ds = true → r = (Raise DSIDExists, (ds, w)))
  ∧ ((del_first = true ∨ is_stored w ds = false) → save_precondition queued = true →
       r.2.1 = queued
       ∧ (∃ i, id ds = Some i ∧ dataset_table r.2.2 !! i = Some queued)
       ∧ (∃ wr, db_writes r.2.2 = wr :: db_writes w)
       ∧ (mode self = "queue" → action_queue self = true →
          ∀ msg, to_queue_message queued = Ok msg →
            r.1 = Ok tt
            ∧ action_published r.2.2
              = (action_message DatasetAction.ADD (<["del_first" := VBool del_first]> ∅) msg,
                 priority) :: action_published w
            ∧ action_message DatasetAction.ADD (<["del_first" := VBool del_first]> ∅) msg
                !! "action" = Some (VStr DatasetAction.ADD)
            ∧ action_message DatasetAction.ADD (<["del_first" := VBool del_first]> ∅) msg
                !! "del_first" = Some (VBool del_first))
       ∧ (mode self ≠ "queue" →
          r.1 = Ok tt ∧ action_published r.2.2 = action_published w)).
Proof.
  simpl. rewrite add_run. split.
  - intros -> ->. reflexivity.
  - intros Hother Hpre.
    assert (negb del_first && is_stored w ds = false) as ->.
    { destruct Hother as [-> | ->]; [done|by destruct del_first]. }
    rewrite post_sm_msg_run. simpl. rewrite Hpre.
    pose proof Hpre as Hf. apply save_precondition_fields in Hf as (Hid & _).
    simpl in Hid.
    destruct (id ds) as [i|] eqn:Hi; [|discriminate Hid].
    split; [|split; [|split; [|split]]].
    + case_bool_decide; [|done].
      destruct (to_queue_message _); [|done]. by destruct (action_queue self).
    + exists i. split; [done|].
      case_bool_decide; [|by simpl; rewrite Hi, lookup_insert_eq].
      destruct (to_queue_message _);
        [destruct (action_queue self)|]; simpl; by rewrite Hi, lookup_insert_eq.
    + case_bool_decide; [|by eexists].
      destruct (to_queue_message _); [destruct (action_queue self)|]; by eexists.
    + intros Hm Hq msg Hmsg.
      rewrite bool_decide_eq_true_2 by done. rewrite Hmsg, Hq. simpl.
      split; [done|]. split; [done|]. split.
      * apply action_message_action. by rewrite lookup_insert_ne.
      * apply action_message_kwarg. by rewrite lookup_insert_eq.
    + intros Hm. by rewrite bool_decide_eq_false_2.
Qed.

Lemma add_dispatch_witness :
  (SMapi.add Examples.api false 1 (Examples.ds_1, Examples.world_0)).1 = Ok tt
  ∧ ∃ m, action_published
           (SMapi.add Examples.api false 1 (Examples.ds_1, Examples.world_0)).2.2
         = [(m, 1)]
       ∧ m !! "action" = Some (VStr "ADD")
       ∧ m !! "del_first" = Some (VBool false).
Proof.
  destruct (add_dispatch Examples.api false 1 Examples.ds_1 Examples.world_0)
    as (_ & Hother).
  destruct Hother as (_ & _ & _ & Hqueue & _).
  - right. vm_compute. reflexivity.
  - vm_compute. reflexivity.
  - destruct (to_queue_message
                (Dataset_with_status Examples.ds_1 (Some DatasetStatus.QUEUED)))
      as [msg|e] eqn:Hmsg; [|vm_compute in Hmsg; discriminate].
    destruct (Hqueue eq_refl eq_refl msg eq_refl) as (Hok & Hpub & Hact & Hdel).
    split; [exact Hok|]. eexists. split; [exact Hpub|]. split; [exact Hact|exact Hdel].
Defined.

(** C4 as stated fails: an ADD for an id that is not stored, with a record
    that has nothing but its id, sets no status in storage and publishes no
    message; it raises AssertionError. *)
Lemma add_incomplete_record_not_queued :
  is_stored Examples.world_0 Examples.ds_bare = false
  ∧ SMapi.add Examples.api false 0 (Examples.ds_bare, Examples.world_0)
    = (Raise AssertionError,
       (Dataset_with_status Examples.ds_bare (Some DatasetStatus.QUEUED), Examples.world_0))
  ∧ action_published Examples.world_0 = []
  ∧ db_writes Examples.world_0 = [].
Proof. vm_compute. repeat split. Qed.

(** C5: whatever a DELETE request publishes to the action queue is published
    at priority HIGH, which is 2: [delete] takes no priority from its caller
    and adds to the queue either nothing (when [save] refuses the record, the
    message cannot be built, or the mode is not 'queue') or exactly one
    message, with action DELETE, at HIGH; a call that returns in mode 'queue'
    has published it. *)
Theorem delete_priority_high (self : SMapiDatasetManager) (del_raw_data : bool)
    (ds : Dataset) (w : World) :
  let r := SMapi.delete self del_raw_data (ds, w) in
  DatasetActionPriority.HIGH = 2
  ∧ (action_published r.2.2 = action_published w
     ∨ ∃ msg, action_published r.2.2
              = (msg, DatasetActionPriority.HIGH) :: action_published w
            ∧ msg !! "action" = Some (VStr DatasetAction.DELETE))
  ∧ (r.1 = Ok tt → mode self = "queue" →
     ∃ msg, action_published r.2.2
            = (msg, DatasetActionPriority.HIGH) :: action_published w).
Proof.
  simpl. unfold SMapi.delete. split; [reflexivity|].
  destruct (post_sm_msg_published self DatasetAction.DELETE DatasetActionPriority.HIGH
              ∅ ds w) as [[Hsame Hfail] | (msg & Hmsg & Hpub & Hok & Hmode)].
  - split; [by left|]. intros Hok Hmode. by destruct (Hfail Hmode).
  - split.
    + right. eexists. split; [exact Hpub|]. by apply action_message_action.
    + intros _ _. eexists. exact Hpub.
Qed.

Lemma delete_priority_high_witness :
  ∃ msg, action_published
           (SMapi.delete Examples.api false (Examples.ds_1, Examples.world_1)).2.2
         = [(msg, 2)].
Proof.
  destruct (delete_priority_high Examples.api false Examples.ds_1 Examples.world_1)
    as (_ & _ & Hpub).
  apply Hpub.
  - vm_compute. reflexivity.
  - reflexivity.
Defined.

(** C9: [delete] does not look at its [del_raw_data] argument, and the
    message it publishes has no [del_raw_data] key; so a consumer that runs
    the deletion with keyword arguments taken from the message binds
    [del_raw_data] to its default and does not delete the raw data. *)
Theorem delete_drops_del_raw_data (self : SMapiDatasetManager) (del_raw_data : bool)
    (ds : Dataset) (w : World) :
  let r := SMapi.delete self del_raw_data (ds, w) in
  r = SMapi.delete self (negb del_raw_data) (ds, w)
  ∧ (action_published r.2.2 = action_published w
     ∨ ∃ msg, action_published r.2.2
              = (msg, DatasetActionPriority.HIGH) :: action_published w
            ∧ msg !! "del_raw_data" = None
            ∧ ∀ kwargs : pydict, kwargs ⊆ msg → SMDaemon.deletes_raw_data kwargs = false).
Proof.
  simpl. split; [reflexivity|]. unfold SMapi.delete.
  destruct (post_sm_msg_published self DatasetAction.DELETE DatasetActionPriority.HIGH
              ∅ ds w) as [[Hsame _] | (msg & Hmsg & Hpub & _ & _)].
  - by left.
  - right. eexists. split; [exact Hpub|].
    assert (action_message DatasetAction.DELETE ∅ msg !! "del_raw_data" = None) as Hnone
      by by apply (action_message_other _ _ _ _ Hmsg).
    split; [exact Hnone|].
    intros kwargs Hsub. unfold SMDaemon.deletes_raw_data, SMDaemon.delete_del_raw_data.
    destruct (kwargs !! "del_raw_data") as [v|] eqn:Hk; [|done].
    eapply lookup_weaken in Hk; [|exact Hsub]. congruence.
Qed.

Lemma delete_drops_del_raw_data_witness :
  ∃ msg, action_published
           (SMapi.delete Examples.api true (Examples.ds_1, Examples.world_1)).2.2
         = [(msg, 2)]
       ∧ msg !! "del_raw_data" = None
       ∧ SMDaemon.deletes_raw_data msg = false.
Proof.
  destruct (delete_drops_del_raw_data Examples.api true Examples.ds_1 Examples.world_1)
    as (_ & [Hsame | (msg & Hpub & Hnone & Hraw)]).
  - vm_compute in Hsame. discriminate Hsame.
  - exists msg. split; [exact Hpub|]. split; [exact Hnone|]. by apply Hraw.
Defined.

(** ** SMapiDatasetManager.update *)

(** A [Dataset] has the attribute [metadata] and no attribute [meta]. *)
Lemma getattr_meta (ds : Dataset) : getattr ds "meta" = Raise AttributeError.
Proof. reflexivity. Qed.

Lemma getattr_metadata (ds : Dataset) : getattr ds "metadata" = Ok (ADoc (metadata ds)).
Proof. reflexivity. Qed.

(** [update] never dispatches: every call raises, before any write or
    publish, and leaves the dataset object and the world as they were.  When
    the dataset is stored and the two configs can be compared, the exception
    is the AttributeError of [old_ds.meta]. *)
Lemma update_never_dispatches (self : SMapiDatasetManager) (priority : Z)
    (ds : Dataset) (w : World) :
  (∃ e, SMapi.update self priority (ds, w) = (Raise e, (ds, w)))
  ∧ (∀ old_ds d, Dataset_load w (id ds) = Ok old_ds →
       SMapi.compare_dataset_configs (config old_ds) (config ds) = Ok d →
       SMapi.update self priority (ds, w) = (Raise AttributeError, (ds, w))).
Proof.
  unfold SMapi.update, abind, get_ds, get_world, alift. simpl. split.
  - destruct (Dataset_load w (id ds)) as [old_ds|e]; [|by eexists].
    destruct (SMapi.compare_dataset_configs _ _) as [d|e]; [|by eexists].
    by eexists.
  - by intros old_ds d -> ->.
Qed.

(** C1, on the code: for a stored dataset, [update] raises AttributeError
    in each of the three rows of the decision table that should publish a
    message (instrument parameters changed, a database added, metadata
    alone changed), and nothing is written or published. *)
Theorem update_raises_on_meta :
  (SMapi.compare_dataset_configs (Some Examples.conf_A_X) (Some Examples.conf_B_X)
   = Ok ConfigDiff.INSTR_PARAMS_DIFF
   ∧ SMapi.update Examples.api 0
       (Dataset_with_config Examples.ds_1 (Some Examples.conf_B_X), Examples.world_1)
     = (Raise AttributeError,
        (Dataset_with_config Examples.ds_1 (Some Examples.conf_B_X), Examples.world_1)))
  ∧ (SMapi.compare_dataset_configs (Some Examples.conf_A_X) (Some Examples.conf_A_XY)
     = Ok ConfigDiff.NEW_MOL_DB
     ∧ SMapi.update Examples.api 0
         (Dataset_with_config Examples.ds_1 (Some Examples.conf_A_XY), Examples.world_1)
       = (Raise AttributeError,
          (Dataset_with_config Examples.ds_1 (Some Examples.conf_A_XY), Examples.world_1)))
  ∧ (SMapi.compare_dataset_configs (Some Examples.conf_A_X) (Some Examples.conf_A_X)
     = Ok ConfigDiff.EQUAL
     ∧ Examples.meta_1 ≠ Examples.meta_2
     ∧ SMapi.update Examples.api 0
         (Dataset_with_metadata Examples.ds_1 Examples.meta_2, Examples.world_1)
       = (Raise AttributeError,
          (Dataset_with_metadata Examples.ds_1 Examples.meta_2, Examples.world_1))).
Proof.
  split; [|split].
  - split; vm_compute; reflexivity.
  - split; vm_compute; reflexivity.
  - split; [vm_compute; reflexivity|]. split; [|vm_compute; reflexivity].
    assert (bool_decide (Examples.meta_1 ≠ Examples.meta_2) = true) as Hne
      by (vm_compute; reflexivity).
    by apply bool_decide_eq_true_1 in Hne.
Qed.

(** ** The zoom of an optical image *)

(** [round] takes a tie to the even integer. *)
Lemma nearest_even_half (q : Z) :
  Zoom.nearest_even (2 * q + 1) 1 = if Z.even q then q else q + 1.
Proof.
  unfold Zoom.nearest_even. change (2 ^ 1) with 2.
  replace ((2 * q + 1) / 2) with q by (Z.div_mod_to_equations; lia).
  replace ((2 * q + 1) mod 2) with 1 by (Z.div_mod_to_equations; lia).
  reflexivity.
Qed.

(** C6, on the code: an image of 1000 x 500 at zoom 1 gets the effective
    zoom 1, but an image of 2000 x 500 at zoom 1 gets [round(0.5)], which is
    0 and not 1, and with it a canvas of 0 x 0; the zoom levels 3 and 5 on
    the same image show the rule (1.5 goes to 2, 2.5 goes to 2, too). *)
Theorem effective_zoom_of_a_tie :
  Zoom.effective_zoom 1 (1000, 500) = Ok 1
  ∧ Zoom.effective_zoom 1 (2000, 500) = Ok 0
  ∧ Zoom.canvas_size 1 (2000, 500) = Ok (0, 0)
  ∧ Zoom.effective_zoom 3 (2000, 500) = Ok 2
  ∧ Zoom.effective_zoom 5 (2000, 500) = Ok 2.
Proof. repeat split; vm_compute; reflexivity. Qed.

(** ** MolecularDB.sf_df *)

Section sf_df_facts.
Import MolecularDB.

Lemma remove_dups_length_le {A} `{EqDecision A} (l : list A) :
  (length (remove_dups l) ≤ length l)%nat.
Proof.
  induction l as [|x l IH]; simpl; [done|].
  destruct (decide_rel elem_of x l); simpl; lia.
Qed.

Lemma remove_dups_length_NoDup {A} `{EqDecision A} (l : list A) :
  length (remove_dups l) = length l ↔ NoDup l.
Proof.
  split.
  - induction l as [|x l IH]; simpl; [constructor|].
    pose proof (remove_dups_length_le l).
    destruct (decide_rel elem_of x l); simpl; intros Hlen; [lia|].
    constructor; [done|]. apply IH. lia.
  - induction 1 as [|x l Hx _ IH]; simpl; [done|].
    destruct (decide_rel elem_of x l); [done|]. simpl. by rewrite IH.
Qed.

(** The check passes exactly when no [(sf_id, adduct)] pair occurs twice. *)
Lemma check_formula_uniqueness_NoDup (df : list peak_row) :
  _check_formula_uniqueness df = Ok tt ↔ NoDup (sf_adduct <$> df).
Proof.
  unfold _check_formula_uniqueness, uniq_sf_adducts.
  rewrite <- remove_dups_length_NoDup, length_fmap.
  case_bool_decide; split; congruence.
Qed.

Lemma sf_df_cached (db : PeaksDB) (self : t) (df : list peak_row) :
  _sf_df self = Some df → sf_df db self = (Ok df, self).
Proof. intros Hc. unfold sf_df. by rewrite Hc. Qed.

(** The first access: a table that is returned has passed the check, and
    it is the rows of the two queries, both non-empty, in sorted order. *)
Lemma sf_df_first_access (db : PeaksDB) (self self' : t) (df : list peak_row) :
  _sf_df self = None → sf_df db self = (Ok df, self') →
  uniq_sf_adducts df = length df
  ∧ NoDup (sf_adduct <$> df)
  ∧ _sf_df self' = Some df
  ∧ ∃ p, read_iso_gen_conf self = Ok p
       ∧ target_sf_peaks_rs db self p ≠ []
       ∧ decoy_sf_peaks_rs db self p ≠ []
       ∧ df ≡ₚ target_sf_peaks_rs db self p ++ decoy_sf_peaks_rs db self p.
Proof.
  intros Hc. unfold sf_df. rewrite Hc.
  destruct (load_sf_peaks db self) as [df0|e] eqn:Hload; [|discriminate].
  destruct (_check_formula_uniqueness df0) as [[]|e] eqn:Hchk; [|discriminate].
  intros [= <- <-]. simpl.
  pose proof Hchk as Hnd. apply check_formula_uniqueness_NoDup in Hnd.
  split; [by apply remove_dups_length_NoDup in Hnd; rewrite length_fmap in Hnd|].
  split; [done|]. split; [done|].
  unfold load_sf_peaks in Hload.
  destruct (read_iso_gen_conf self) as [p|e]; simpl in Hload; [|discriminate].
  exists p. split; [done|].
  destruct (target_sf_peaks_rs db self p) as [|r1 l1] eqn:Ht; [discriminate|].
  destruct (decoy_sf_peaks_rs db self p) as [|r2 l2] eqn:Hd; [discriminate|].
  injection Hload as <-. split; [done|]. split; [done|].
  unfold sort_values. apply merge_sort_Permutation.
Qed.

(** C7: when the table is assembled (nothing is cached yet) and the target
    query or the decoy query returns no row, [sf_df] raises AssertionError;
    it returns no table, and it caches none, so a later access does not
    return one either. *)
Theorem sf_df_empty_query_fails (db : PeaksDB) (self : t) (p : iso_gen_params) :
  _sf_df self = None → read_iso_gen_conf self = Ok p →
  target_sf_peaks_rs db self p = [] ∨ decoy_sf_peaks_rs db self p = [] →
  sf_df db self = (Raise AssertionError, self).
Proof.
  intros Hc Hp Hempty. unfold sf_df, load_sf_peaks. rewrite Hc, Hp. simpl.
  destruct (target_sf_peaks_rs db self p) as [|r1 l1]; [done|].
  destruct Hempty as [Ht|Hd]; [discriminate|]. by rewrite Hd.
Qed.

Lemma sf_df_empty_query_fails_witness :
  sf_df Examples.db_no_target Examples.moldb_0 = (Raise AssertionError, Examples.moldb_0).
Proof.
  destruct (read_iso_gen_conf Examples.moldb_0) as [p|e] eqn:Hp;
    [|vm_compute in Hp; discriminate].
  apply (sf_df_empty_query_fails Examples.db_no_target Examples.moldb_0 p).
  - reflexivity.
  - exact Hp.
  - left. reflexivity.
Defined.

(** C3, on the code: with a decoy row that repeats a target row, the first
    access of [sf_df] raises AssertionError but has already stored the
    table in the object, and the second access returns that table, four
    rows with three distinct [(sf_id, adduct)] pairs. *)
Theorem sf_df_second_access_returns_duplicates :
  let first := sf_df Examples.db_dup Examples.moldb_0 in
  first.1 = Raise AssertionError
  ∧ _sf_df first.2 = Some Examples.df_dup
  ∧ sf_df Examples.db_dup first.2 = (Ok Examples.df_dup, first.2)
  ∧ uniq_sf_adducts Examples.df_dup = 3%nat
  ∧ length Examples.df_dup = 4%nat.
Proof. repeat split; vm_compute; reflexivity. Qed.

End sf_df_facts.

(** * Further properties of the code *)

(** ** Dataset: save, load, set_status, to_queue_message *)

Lemma Dataset_load_row (w : World) (ds : Dataset) i :
  id ds = Some i → dataset_table w !! i = Some ds → Dataset_load w (id ds) = Ok ds.
Proof.
  intros Hi Hrow. unfold Dataset_load, select_one. rewrite Hi. simpl. rewrite Hrow.
  rewrite <- Hi. by destruct ds.
Qed.

Lemma world_after_save_row (sq : bool) (ds : Dataset) (w : World) :
  save_precondition ds = true →
  Dataset_load (world_after_save sq ds w) (id ds) = Ok ds
  ∧ is_stored (world_after_save sq ds w) ds = true.
Proof.
  intros Hpre. apply save_precondition_fields in Hpre as (Hid & _).
  destruct (id ds) as [i|] eqn:Hi; [|discriminate Hid].
  split.
  - rewrite <- Hi. apply (Dataset_load_row _ _ i); [done|].
    unfold world_after_save. simpl. rewrite Hi. by rewrite lookup_insert_eq.
  - unfold is_stored, select_one, world_after_save. rewrite Hi. simpl.
    rewrite lookup_insert_eq. by apply bool_decide_eq_true_2.
Qed.

(** X1: a record that [save] accepts can be loaded back by its id, field for
    field, and the rows of the other datasets are as they were. *)
Theorem save_then_load (sq : bool) (ds : Dataset) (w : World) :
  save_precondition ds = true →
  let w' := (save sq (ds, w)).2.2 in
  Dataset_load w' (id ds) = Ok ds
  ∧ is_stored w' ds = true
  ∧ ∀ j, id ds ≠ Some j → dataset_table w' !! j = dataset_table w !! j.
Proof.
  intros Hpre. simpl. rewrite save_run, Hpre. simpl.
  destruct (world_after_save_row sq ds w Hpre) as (Hload & Hst).
  split; [exact Hload|]. split; [exact Hst|].
  intros j Hj. unfold world_after_save. simpl.
  destruct (id ds) as [i|]; [|done].
  rewrite lookup_insert_ne; [done|]. congruence.
Qed.

Lemma save_then_load_witness :
  Dataset_load (save true (Examples.ds_1, Examples.world_0)).2.2 (Some "ds1")
  = Ok Examples.ds_1.
Proof.
  apply (save_then_load true Examples.ds_1 Examples.world_0).
  vm_compute. reflexivity.
Defined.

(** X2: [save] inserts the row when the id is not stored and updates it
    otherwise: saving an accepted record a second time succeeds, is an
    UPDATE, and leaves the table as the first save left it. *)
Theorem save_twice (sq : bool) (ds : Dataset) (w : World) :
  save_precondition ds = true →
  let w1 := (save sq (ds, w)).2.2 in
  let r2 := save sq (ds, w1) in
  db_writes w1 = (if is_stored w ds then DS_UPD ds else DS_INSERT ds) :: db_writes w
  ∧ r2.1 = Ok tt
  ∧ db_writes r2.2.2 = DS_UPD ds :: db_writes w1
  ∧ dataset_table r2.2.2 = dataset_table w1.
Proof.
  intros Hpre. simpl.
  destruct (world_after_save_row sq ds w Hpre) as (_ & Hst).
  rewrite (save_run sq ds (save sq (ds, w)).2.2), Hpre. simpl.
  rewrite save_run, Hpre. simpl. rewrite Hst.
  split; [done|]. split; [done|]. split; [done|].
  destruct (id ds) as [i|]; [|done]. by rewrite insert_insert_eq.
Qed.

Lemma save_twice_witness :
  db_writes (save true (Examples.ds_1,
                        (save true (Examples.ds_1, Examples.world_0)).2.2)).2.2
  = [DS_UPD Examples.ds_1; DS_INSERT Examples.ds_1].
Proof.
  destruct (save_twice true Examples.ds_1 Examples.world_0) as (H1 & _ & H2 & _).
  - reflexivity.
  - simpl in H1, H2. rewrite H2, H1. reflexivity.
Defined.

(** X3: [set_status] changes the status of the object first and saves
    afterwards, so a status that is [None] or empty is refused by the
    assertion of [save] whatever the rest of the record: the call raises
    AssertionError, storage, index and queues are untouched, and the object
    keeps the status that was refused. *)
Theorem set_status_empty_refused (sq : bool) (s : option string) (ds : Dataset) (w : World) :
  str_truthy s = false →
  set_status sq s (ds, w) = (Raise AssertionError, (Dataset_with_status ds s, w)).
Proof.
  intros Hs. rewrite set_status_run, save_run.
  assert (save_precondition (Dataset_with_status ds s) = false) as ->; [|done].
  unfold save_precondition. simpl. rewrite Hs.
  by rewrite !andb_false_r.
Qed.

Lemma set_status_empty_refused_witness :
  set_status true None (Examples.ds_1, Examples.world_1)
  = (Raise AssertionError, (Dataset_with_status Examples.ds_1 None, Examples.world_1)).
Proof. apply set_status_empty_refused. reflexivity. Defined.

(** X4: [set_status] with a non-empty status on a record that is otherwise
    complete stores the record under its new status (a load returns it with
    that status and every other field unchanged), syncs the search index
    once, and, when a status queue was given, publishes the id and the new
    status on it. *)
Theorem set_status_persists (sq : bool) (s : string) (ds : Dataset) (w : World) :
  save_precondition (Dataset_with_status ds (Some s)) = true →
  let r := set_status sq (Some s) (ds, w) in
  r.1 = Ok tt
  ∧ Dataset_load r.2.2 (id ds) = Ok (Dataset_with_status ds (Some s))
  ∧ es_sync r.2.2 = id ds :: es_sync w
  ∧ status_published r.2.2
    = (if sq
       then <["ds_id" := of_str (id ds)]> (<["status" := VStr s]> ∅) :: status_published w
       else status_published w)
  ∧ action_published r.2.2 = action_published w.
Proof.
  intros Hpre. simpl. rewrite set_status_run.
  destruct (world_after_save_row sq _ w Hpre) as (Hload & _).
  rewrite save_run, Hpre. simpl.
  split; [done|]. split; [exact Hload|]. by destruct sq.
Qed.

Lemma set_status_persists_witness :
  Dataset_load (set_status true (Some "FAILED") (Examples.ds_1, Examples.world_1)).2.2
    (Some "ds1")
  = Ok (Dataset_with_status Examples.ds_1 (Some "FAILED")).
Proof.
  destruct (set_status_persists true "FAILED" Examples.ds_1 Examples.world_1)
    as (_ & Hload & _).
  - reflexivity.
  - exact Hload.
Defined.

Lemma lower_ascii_idemp (a : Ascii.ascii) : lower_ascii (lower_ascii a) = lower_ascii a.
Proof. destruct a as [[] [] [] [] [] [] [] []]; vm_compute; reflexivity. Qed.

Lemma lower_idemp (s : string) : lower (lower s) = lower s.
Proof. induction s as [|a s IH]; simpl; [done|]. by rewrite lower_ascii_idemp, IH. Qed.

Lemma lower_nonempty (s : string) : s ≠ "" → lower s ≠ "".
Proof. by destruct s. Qed.

(** X5: a queue message always carries the id, the name and the input path
    of the dataset, and besides them at most [user_email]; [user_email] is
    there exactly for a non-empty string found at
    [metadata.Submitted_By.Submitter.Email].  When that string is ASCII,
    the message holds it with the letters A to Z replaced by a to z, which
    is what [str.lower] returns on an ASCII string (so it is not empty and
    lowering it again changes nothing). *)
Theorem to_queue_message_contents (ds : Dataset) (msg : pydict) :
  to_queue_message ds = Ok msg →
  (∀ s, submitter_email ds = Ok (VStr s) → is_ascii s = true) →
  msg !! "ds_id" = Some (of_str (id ds))
  ∧ msg !! "ds_name" = Some (of_str (name ds))
  ∧ msg !! "input_path" = Some (of_str (input_path ds))
  ∧ (∀ k, k ≠ "ds_id" → k ≠ "ds_name" → k ≠ "input_path" → k ≠ "user_email" →
          msg !! k = None)
  ∧ ∃ email,
      submitter_email ds = Ok email
      ∧ match msg !! "user_email" with
        | Some e => ∃ s, email = VStr s ∧ s ≠ "" ∧ is_ascii s = true
                         ∧ e = VStr (lower s)
                         ∧ lower (lower s) = lower s ∧ lower s ≠ ""
        | None => truthy email = false
        end.
Proof.
  intros Hm Hascii.
  split; [|split; [|split; [|split]]].
  4: { intros k H1 H2 H3 H4. by apply (to_queue_message_keys ds). }
  all: unfold to_queue_message in Hm; unfold submitter_email in Hascii; unfold submitter_email.
  all: destruct (py_get (metadata ds) "Submitted_By" (VDict ∅)) as [sb|] eqn:Hsb;
         simpl in Hm, Hascii; [|done].
  all: destruct (py_get sb "Submitter" (VDict ∅)) as [su|] eqn:Hsu;
         simpl in Hm, Hascii; [|done].
  all: destruct (py_get su "Email" VNone) as [em|] eqn:Hem; simpl in Hm; [|done].
  all: destruct (truthy em) eqn:Ht.
  all: try (destruct (py_lower em) as [e|] eqn:Hl; simpl in Hm; [|done]).
  all: injection Hm as <-.
  all: try (by rewrite ?lookup_insert_eq, ?lookup_insert_ne by done).
  - exists em. split; [simpl; rewrite Hsu; simpl; exact Hem|].
    rewrite lookup_insert_eq.
    destruct em as [| | | |s| |]; try discriminate Hl. injection Hl as <-.
    exists s. simpl in Ht.
    assert (s ≠ "") as Hne by (by apply negb_true_iff, bool_decide_eq_false in Ht).
    split; [done|]. split; [done|]. split; [by apply Hascii|]. split; [done|].
    split; [apply lower_idemp|by apply lower_nonempty].
  - exists em. split; [simpl; rewrite Hsu; simpl; exact Hem|].
    by rewrite !lookup_insert_ne, lookup_empty by done.
Qed.

Lemma to_queue_message_contents_witness :
  ∃ msg, to_queue_message Examples.ds_1 = Ok msg
       ∧ msg !! "ds_id" = Some (VStr "ds1")
       ∧ msg !! "ds_name" = Some (VStr "first").
Proof.
  assert (∃ msg, to_queue_message Examples.ds_1 = Ok msg) as [msg Hm]
    by (eexists; reflexivity).
  exists msg. split; [exact Hm|].
  destruct (to_queue_message_contents Examples.ds_1 msg Hm) as (Hid & Hname & _).
  - intros s [= <-]. reflexivity.
  - split; [exact Hid|exact Hname].
Defined.

(** X6: [to_queue_message] raises nothing but AttributeError, and raises it
    whenever the metadata is not a dict ([None], a list, a string, a
    number). *)
Theorem to_queue_message_raises (ds : Dataset) :
  (∀ e, to_queue_message ds = Raise e → e = AttributeError)
  ∧ ((∀ d, metadata ds ≠ VDict d) → to_queue_message ds = Raise AttributeError).
Proof.
  unfold to_queue_message. split.
  - intros e.
    destruct (metadata ds) as [| | | | | |d]; simpl; try congruence.
    destruct (default (VDict ∅) (d !! "Submitted_By")) as [| | | | | |d1]; simpl; try congruence.
    destruct (default (VDict ∅) (d1 !! "Submitter")) as [| | | | | |d2]; simpl; try congruence.
    destruct (truthy _); [|congruence].
    destruct (default VNone (d2 !! "Email")); simpl; congruence.
  - intros Hnd. destruct (metadata ds) as [| | | | | |d]; simpl; try done.
    by destruct (Hnd d).
Qed.

(** ** The queued dispatcher: what a failure leaves behind *)

(** X8: [_post_sm_msg] stores the status QUEUED before it builds the
    message.  In mode 'queue', when the record passes the assertion of
    [save] but its message cannot be built, the call raises and publishes
    no action message, yet the dataset is stored as QUEUED. *)
Theorem post_sm_msg_queued_without_message (self : SMapiDatasetManager) (action : string)
    (priority : Z) (kwargs : pydict) (ds : Dataset) (w : World) (e : exn) :
  let queued := Dataset_with_status ds (Some DatasetStatus.QUEUED) in
  let r := SMapi._post_sm_msg self action priority kwargs (ds, w) in
  save_precondition queued = true → mode self = "queue" →
  to_queue_message queued = Raise e →
  r.1 = Raise e
  ∧ Dataset_load r.2.2 (id ds) = Ok queued
  ∧ action_published r.2.2 = action_published w.
Proof.
  simpl. intros Hpre Hmode Hmsg.
  rewrite post_sm_msg_run. simpl. rewrite Hpre, Hmsg.
  rewrite bool_decide_eq_true_2 by done. simpl.
  split; [done|]. split; [|done].
  by destruct (world_after_save_row (status_queue self) _ w Hpre) as (Hload & _).
Qed.

Lemma post_sm_msg_queued_without_message_witness :
  (SMapi._post_sm_msg Examples.api "ADD" 0 ∅
     (Dataset_with_metadata Examples.ds_1 VNone, Examples.world_0)).1
  = Raise AttributeError.
Proof.
  destruct (post_sm_msg_queued_without_message Examples.api "ADD" 0 ∅
              (Dataset_with_metadata Examples.ds_1 VNone) Examples.world_0 AttributeError)
    as (Hr & _).
  - reflexivity.
  - reflexivity.
  - reflexivity.
  - exact Hr.
Defined.

(** X9: a manager built without an action queue (the default of the
    constructor) in mode 'queue' raises AttributeError on every ADD or
    DELETE whose record and message are in order, after it has stored the
    dataset as QUEUED. *)
Theorem post_sm_msg_without_action_queue (self : SMapiDatasetManager) (action : string)
    (priority : Z) (kwargs : pydict) (ds : Dataset) (w : World) (msg : pydict) :
  let queued := Dataset_with_status ds (Some DatasetStatus.QUEUED) in
  let r := SMapi._post_sm_msg self action priority kwargs (ds, w) in
  save_precondition queued = true → mode self = "queue" → action_queue self = false →
  to_queue_message queued = Ok msg →
  r.1 = Raise AttributeError
  ∧ Dataset_load r.2.2 (id ds) = Ok queued
  ∧ action_published r.2.2 = action_published w.
Proof.
  simpl. intros Hpre Hmode Hq Hmsg.
  rewrite post_sm_msg_run. simpl. rewrite Hpre, Hmsg, Hq.
  rewrite bool_decide_eq_true_2 by done. simpl.
  split; [done|]. split; [|done].
  by destruct (world_after_save_row (status_queue self) _ w Hpre) as (Hload & _).
Qed.

Lemma post_sm_msg_without_action_queue_witness :
  (SMapi._post_sm_msg (mkManager "queue" true false) "DELETE" 2 ∅
     (Examples.ds_1, Examples.world_1)).1
  = Raise AttributeError.
Proof.
  assert (∃ msg, to_queue_message
                   (Dataset_with_status Examples.ds_1 (Some DatasetStatus.QUEUED)) = Ok msg)
    as [msg Hmsg] by (eexists; reflexivity).
  destruct (post_sm_msg_without_action_queue (mkManager "queue" true false) "DELETE" 2 ∅
              Examples.ds_1 Examples.world_1 msg) as (Hr & _).
  - reflexivity.
  - reflexivity.
  - reflexivity.
  - exact Hmsg.
  - exact Hr.
Defined.

(** X10: a DELETE request for an id that is not in storage creates the
    row: [delete] goes through [set_status], whose [save] inserts a record
    that is not stored, so afterwards the dataset is stored, with status
    QUEUED. *)
Theorem delete_unstored_inserts (self : SMapiDatasetManager) (del_raw_data : bool)
    (ds : Dataset) (w : World) :
  let queued := Dataset_with_status ds (Some DatasetStatus.QUEUED) in
  let r := SMapi.delete self del_raw_data (ds, w) in
  is_stored w ds = false → save_precondition queued = true →
  is_stored r.2.2 ds = true
  ∧ Dataset_load r.2.2 (id ds) = Ok queued
  ∧ db_writes r.2.2 = DS_INSERT queued :: db_writes w.
Proof.
  simpl. intros Hns Hpre. unfold SMapi.delete.
  rewrite post_sm_msg_run. simpl. rewrite Hpre.
  destruct (world_after_save_row (status_queue self) _ w Hpre) as (Hload & Hst).
  simpl in Hload, Hst.
  assert (is_stored w (Dataset_with_status ds (Some DatasetStatus.QUEUED)) = false) as Hns'
    by exact Hns.
  case_bool_decide.
  - destruct (to_queue_message _); [destruct (action_queue self)|]; simpl;
      (split; [exact Hst|]; split; [exact Hload|];
       unfold world_after_save; simpl; by rewrite Hns').
  - simpl. split; [exact Hst|]. split; [exact Hload|].
    unfold world_after_save. simpl. by rewrite Hns'.
Qed.

Lemma delete_unstored_inserts_witness :
  is_stored (SMapi.delete Examples.api false (Examples.ds_1, Examples.world_0)).2.2
    Examples.ds_1 = true.
Proof.
  destruct (delete_unstored_inserts Examples.api false Examples.ds_1 Examples.world_0)
    as (Hst & _).
  - reflexivity.
  - reflexivity.
  - exact Hst.
Defined.

(** A closed decidable proposition, settled by evaluating its decision. *)
Ltac by_evaluation :=
  match goal with
  | |- ?P =>
      let H := fresh in
      assert (bool_decide P = true) as H by (vm_compute; reflexivity);
      exact (bool_decide_eq_true_1 P H)
  end.

(** ** ConfigDiff.compare_configs: what it does not look at *)

Section compare_configs_more.
Import ConfigDiff.

(** X11: a database that was removed is not detected.  When two configs of
    the data model agree outside [databases] and every (name, version) pair
    of the new list is also in the old list, the result is EQUAL, however
    many selections the new list has lost, repeated or reordered. *)
Theorem compare_configs_removal_is_equal (h : heap) old new (o n : pydict) :
  h !! old = Some o → h !! new = Some n →
  wf_config o = true → wf_config n = true →
  delete "databases" o = delete "databases" n →
  selections n ⊆ selections o →
  (compare_configs old new h).1 = Ok EQUAL.
Proof.
  intros Ho Hn Hwo Hwn Hrest Hsub.
  rewrite (compare_configs_run h old new o n Ho Hn).
  destruct (decide (old = new)); [done|]. simpl.
  rewrite (compare_configs_val_ref o n Hwo Hwn). f_equal.
  unfold classify_ref. rewrite Hrest.
  rewrite dict_eq_refl.
  2: { apply nan_free_delete. unfold wf_config in Hwn.
       by apply andb_true_iff in Hwn as [? _]. }
  assert (existsb (λ p, negb (set_mem p (selections o))) (selections n) = false)
    as ->; [|done].
  apply not_true_iff_false. rewrite existsb_exists.
  intros (p & Hp & Hnot). apply list_elem_of_In in Hp.
  apply negb_true_iff in Hnot. rewrite set_mem_false in Hnot.
  specialize (Hnot p (Hsub p Hp)).
  rewrite pair_eq_refl in Hnot; [discriminate|].
  pose proof (wf_config_selections n Hwn) as Hel. rewrite Forall_forall in Hel.
  by apply Hel.
Qed.

Lemma compare_configs_removal_is_equal_witness :
  (compare_configs 2%positive 1%positive Examples.heap_1).1 = Ok EQUAL.
Proof.
  apply (compare_configs_removal_is_equal Examples.heap_1 2%positive 1%positive
           Examples.conf_A_XY Examples.conf_A_X).
  - reflexivity.
  - reflexivity.
  - reflexivity.
  - reflexivity.
  - by_evaluation.
  - by_evaluation.
Defined.

(** X12: a difference outside [databases] decides alone.  When the two
    configs are not equal ([==]) once the key is stripped, the result is
    INSTR_PARAMS_DIFF and the [databases] values are never read: they may
    be missing, malformed or anything else, and nothing is raised.  (The
    old config holds no NaN outside [databases]: a NaN is unequal to
    itself unless it is the same object.) *)
Theorem compare_configs_rest_decides (h : heap) old new (o n : pydict) :
  h !! old = Some o → h !! new = Some n →
  nan_free (VDict (delete "databases" o)) = true →
  dict_eq (delete "databases" o) (delete "databases" n) = false →
  (compare_configs old new h).1 = Ok INSTR_PARAMS_DIFF.
Proof.
  intros Ho Hn Hnf Hrest.
  rewrite (compare_configs_run h old new o n Ho Hn).
  destruct (decide (old = new)) as [->|Hne].
  { assert (o = n) as -> by congruence. by rewrite dict_eq_refl in Hrest. }
  simpl. unfold compare_configs_val.
  destruct (dict_eq o n) eqn:Hon.
  { by rewrite (dict_eq_delete _ _ _ Hon) in Hrest. }
  simpl. by rewrite Hrest.
Qed.

Lemma compare_configs_rest_decides_witness :
  (compare_configs 1%positive 2%positive
     (<[1%positive := <["ppm" := VFloat 3%float]> (<["databases" := VInt 7]> ∅)]>
        (<[2%positive := <["ppm" := VFloat 2.5%float]> ∅]> ∅))).1
  = Ok INSTR_PARAMS_DIFF.
Proof.
  apply (compare_configs_rest_decides _ _ _
           (<["ppm" := VFloat 3%float]> (<["databases" := VInt 7]> ∅))
           (<["ppm" := VFloat 2.5%float]> ∅)).
  - reflexivity.
  - reflexivity.
  - vm_compute. reflexivity.
  - vm_compute. reflexivity.
Defined.

(** X13: when the two configs are equal ([==]) outside [databases] but
    not as a whole, the two lists are read, the old one first, and a first
    selection of the old list that has no [name] makes the call raise
    KeyError (TypeError when the selection is not a dict), whatever the new
    list holds.  (The old config holds no NaN.) *)
Theorem compare_configs_nameless_raises (h : heap) old new (o n : pydict)
    (sel : pyval) (sels : list pyval) :
  h !! old = Some o → h !! new = Some n →
  nan_free (VDict o) = true →
  dict_eq o n = false →
  dict_eq (delete "databases" o) (delete "databases" n) = true →
  o !! "databases" = Some (VList (sel :: sels)) →
  py_getitem sel "name" = Raise KeyError ∨ py_getitem sel "name" = Raise TypeError →
  ∃ e, (compare_configs old new h).1 = Raise e
       ∧ py_getitem sel "name" = Raise e
       ∧ (compare_configs old new h).2 !! old = Some o
       ∧ (compare_configs old new h).2 !! new = Some n.
Proof.
  intros Ho Hn Hnf Hne Hrest Hdbs Hsel.
  rewrite (compare_configs_run h old new o n Ho Hn).
  destruct (decide (old = new)) as [->|Hneq].
  { assert (o = n) as -> by congruence. by rewrite dict_eq_refl in Hne. }
  simpl. rewrite Hne.
  assert (∃ e, py_getitem sel "name" = Raise e) as [e He]
    by (destruct Hsel as [-> | ->]; by eexists).
  exists e. split; [|split; [done|split; by apply heap_after_frame]].
  unfold compare_configs_val. rewrite Hne. simpl. rewrite Hrest. simpl.
  rewrite Hdbs. simpl. unfold mol_dbs_to_set. simpl. by rewrite He.
Qed.

Lemma compare_configs_nameless_raises_witness :
  ∃ e, (compare_configs 1%positive 2%positive
          (<[1%positive := <["databases" := VList [VDict ∅]]> ∅]>
             (<[2%positive := <["databases" := VList []]> ∅]> ∅))).1
       = Raise e
       ∧ e = KeyError.
Proof.
  edestruct (compare_configs_nameless_raises
               (<[1%positive := <["databases" := VList [VDict ∅]]> ∅]>
                  (<[2%positive := <["databases" := VList []]> ∅]> ∅))
               1%positive 2%positive
               (<["databases" := VList [VDict ∅]]> ∅) (<["databases" := VList []]> ∅)
               (VDict ∅) []) as (e & He & Hsel & _).
  - reflexivity.
  - reflexivity.
  - vm_compute. reflexivity.
  - vm_compute. reflexivity.
  - vm_compute. reflexivity.
  - reflexivity.
  - left. reflexivity.
  - exists e. split; [exact He|]. vm_compute in Hsel. congruence.
Defined.

End compare_configs_more.

(** ** The zoom: images without a width or a height *)

(** X14: for an image whose width is 0, and for an image whose height is 0
    (and whose width is within the range of the doubles), the viewport
    ratio is a division by zero: [_transform_scan] raises
    ZeroDivisionError, whatever the zoom level. *)
Theorem effective_zoom_zero_dimension (zoom w h : Z) (x : float) :
  w = 0 ∨ (h = 0 ∧ Zoom.float_of_int w = Ok x) →
  Zoom.effective_zoom zoom (w, h) = Raise ZeroDivisionError
  ∧ Zoom.canvas_size zoom (w, h) = Raise ZeroDivisionError.
Proof.
  intros Hz.
  assert (Zoom.effective_zoom zoom (w, h) = Raise ZeroDivisionError) as Hez.
  { unfold Zoom.effective_zoom, Zoom.float_div_int. simpl.
    destruct Hz as [-> | [-> Hw]]; [reflexivity|].
    rewrite Hw. simpl. destruct (w =? 0); reflexivity. }
  split; [exact Hez|]. unfold Zoom.canvas_size. by rewrite Hez.
Qed.

Lemma effective_zoom_zero_dimension_witness :
  Zoom.effective_zoom 4 (640, 0) = Raise ZeroDivisionError.
Proof.
  destruct (Zoom.float_of_int 640) as [x|e] eqn:Hx; [|vm_compute in Hx; discriminate].
  apply (effective_zoom_zero_dimension 4 640 0 x). right. split; [reflexivity|exact Hx].
Defined.

(** ** MolecularDB: the table and its views *)

Section sf_df_more.
Import MolecularDB PeakViews.

Global Instance sf_adduct_le_total : Total sf_adduct_le.
Proof.
  intros r1 r2. unfold sf_adduct_le, sf_adduct_leb.
  destruct (Z.lt_trichotomy (sf_id r1) (sf_id r2)) as [Hlt|[Heq|Hgt]].
  - left. apply Is_true_true. apply orb_true_iff. left. by apply Z.ltb_lt.
  - destruct (String.leb_total (adduct r1) (adduct r2)) as [Hle|Hle].
    + left. apply Is_true_true. apply orb_true_iff. right.
      apply andb_true_iff. split; [by apply Z.eqb_eq|done].
    + right. apply Is_true_true. apply orb_true_iff. right.
      apply andb_true_iff. split; [by apply Z.eqb_eq|done].
  - right. apply Is_true_true. apply orb_true_iff. left. by apply Z.ltb_lt.
Qed.

(** X15: a first access on which both queries return rows leaves the
    sorted merge in the object, whatever the uniqueness check then does:
    the cached table holds the rows of the target query and of the decoy
    query, all of them and nothing else, in ascending order of
    [(sf_id, adduct)], and it is the table the access returns when it
    returns one. *)
Theorem sf_df_sorted_merge (db : PeaksDB) (self : t) (p : iso_gen_params) :
  _sf_df self = None → read_iso_gen_conf self = Ok p →
  target_sf_peaks_rs db self p ≠ [] → decoy_sf_peaks_rs db self p ≠ [] →
  ∃ df, _sf_df (sf_df db self).2 = Some df
      ∧ Sorted sf_adduct_le df
      ∧ df ≡ₚ target_sf_peaks_rs db self p ++ decoy_sf_peaks_rs db self p
      ∧ ∀ df', (sf_df db self).1 = Ok df' → df' = df.
Proof.
  intros Hc Hp Ht Hd.
  exists (sort_values (target_sf_peaks_rs db self p ++ decoy_sf_peaks_rs db self p)).
  assert (load_sf_peaks db self
          = Ok (sort_values (target_sf_peaks_rs db self p ++ decoy_sf_peaks_rs db self p)))
    as Hload.
  { unfold load_sf_peaks. rewrite Hp. simpl.
    destruct (target_sf_peaks_rs db self p); [done|].
    by destruct (decoy_sf_peaks_rs db self p). }
  unfold sf_df. rewrite Hc, Hload.
  split; [by destruct (_check_formula_uniqueness _)|].
  split; [apply Sorted_merge_sort; apply _|].
  split; [apply merge_sort_Permutation|].
  intros df'. destruct (_check_formula_uniqueness _); simpl; congruence.
Qed.

Lemma sf_df_sorted_merge_witness :
  ∃ df, _sf_df (sf_df Examples.db_dup Examples.moldb_0).2 = Some df
      ∧ Sorted sf_adduct_le df.
Proof.
  assert (∃ p, read_iso_gen_conf Examples.moldb_0 = Ok p) as [p Hp]
    by (eexists; reflexivity).
  destruct (sf_df_sorted_merge Examples.db_dup Examples.moldb_0 p)
    as (df & Hdf & Hsorted & _).
  - reflexivity.
  - exact Hp.
  - discriminate.
  - discriminate.
  - exists df. split; [exact Hdf|exact Hsorted].
Defined.

(** X16: the table is computed once per object.  After an access that
    returned a table, every later access returns that same table and leaves
    the object as it is, whatever the database then holds and whatever job
    id has been set in the meantime: there is no invalidation. *)
Theorem sf_df_cache_is_kept (db db' : PeaksDB) (self self' : t) (df : list peak_row) :
  sf_df db self = (Ok df, self') →
  sf_df db' self' = (Ok df, self')
  ∧ ∀ job_id, sf_df db' (set_job_id self' job_id) = (Ok df, set_job_id self' job_id).
Proof.
  intros Hdf.
  assert (_sf_df self' = Some df) as Hc.
  { unfold sf_df in Hdf. destruct (_sf_df self) as [df0|] eqn:Hc0.
    - injection Hdf as <- <-. done.
    - destruct (load_sf_peaks db self) as [df0|e]; [|discriminate].
      destruct (_check_formula_uniqueness df0); [|discriminate].
      by injection Hdf as <- <-. }
  split; [by apply sf_df_cached|].
  intros job_id. by apply sf_df_cached.
Qed.

Lemma sf_df_cache_is_kept_witness :
  sf_df Examples.db_no_target
        (set_job_id (mkMolDB Examples.iso_conf 7 (Some 3) (Some Examples.df_dup)) 9)
  = (Ok Examples.df_dup,
     set_job_id (mkMolDB Examples.iso_conf 7 (Some 3) (Some Examples.df_dup)) 9).
Proof.
  apply (sf_df_cache_is_kept Examples.db_dup Examples.db_no_target
           (mkMolDB Examples.iso_conf 7 (Some 3) (Some Examples.df_dup))).
  reflexivity.
Defined.

(** X17: a dataset config without the key [isotope_generation] makes the
    first access raise KeyError before any query is made, and nothing is
    cached. *)
Theorem sf_df_missing_isotope_generation (db : PeaksDB) (self : t) :
  _sf_df self = None → ds_config self !! "isotope_generation" = None →
  sf_df db self = (Raise KeyError, self).
Proof.
  intros Hc Hk. unfold sf_df, load_sf_peaks, read_iso_gen_conf. rewrite Hc.
  simpl. by rewrite Hk.
Qed.

Lemma sf_df_missing_isotope_generation_witness :
  sf_df Examples.db_dup (mkMolDB Examples.conf_A_X 7 None None)
  = (Raise KeyError, mkMolDB Examples.conf_A_X 7 None None).
Proof. apply sf_df_missing_isotope_generation; reflexivity. Defined.

End sf_df_more.

Section peak_views.
Import MolecularDB PeakViews.

Lemma dict_of_pairs_snoc {K V} `{Countable K} (l : list (K * V)) (kv : K * V) :
  dict_of_pairs (l ++ [kv]) = <[kv.1 := kv.2]> (dict_of_pairs l).
Proof. unfold dict_of_pairs. by rewrite foldl_app. Qed.

Lemma dict_of_pairs_lookup {K V} `{Countable K} (l : list (K * V)) (k : K) (v : V) :
  NoDup l.*1 → dict_of_pairs l !! k = Some v ↔ (k, v) ∈ l.
Proof.
  induction l as [|[k' v'] l IH] using rev_ind; intros Hnd.
  - unfold dict_of_pairs. simpl. rewrite lookup_empty. split; [done|].
    intros Hin. by apply not_elem_of_nil in Hin.
  - rewrite fmap_app in Hnd. apply NoDup_app in Hnd as (Hnd & Hfresh & _).
    rewrite dict_of_pairs_snoc. simpl. rewrite elem_of_app, list_elem_of_singleton.
    destruct (decide (k' = k)) as [->|Hne].
    + rewrite lookup_insert_eq. split.
      * intros [= ->]. by right.
      * intros [Hin | [= ->]]; [|done].
        exfalso. apply (Hfresh k); [|simpl; left].
        apply list_elem_of_fmap. by exists (k, v).
    + rewrite lookup_insert_ne by done. rewrite (IH Hnd). split; [by left|].
      intros [Hin | [= -> ->]]; [done|by destruct Hne].
Qed.

Lemma dict_of_pairs_size {K V} `{Countable K} (l : list (K * V)) :
  NoDup l.*1 → size (dict_of_pairs l) = length l.
Proof.
  induction l as [|[k v] l IH] using rev_ind; intros Hnd.
  - done.
  - pose proof Hnd as Hnd'.
    rewrite fmap_app in Hnd. apply NoDup_app in Hnd as (Hnd & Hfresh & _).
    rewrite dict_of_pairs_snoc, length_app. simpl.
    rewrite map_size_insert_None; [rewrite (IH Hnd); lia|].
    destruct (dict_of_pairs l !! k) as [v0|] eqn:Hl; [|done].
    apply (dict_of_pairs_lookup _ _ _ Hnd) in Hl.
    exfalso. apply (Hfresh k); [|simpl; left].
    apply list_elem_of_fmap. by exists (k, v0).
Qed.

Lemma dict_of_pairs_elem {K V} `{Countable K} (l : list (K * V)) (k : K) (v : V) :
  dict_of_pairs l !! k = Some v → (k, v) ∈ l.
Proof.
  induction l as [|[k' v'] l IH] using rev_ind.
  - unfold dict_of_pairs. simpl. by rewrite lookup_empty.
  - rewrite dict_of_pairs_snoc. simpl. rewrite elem_of_app, list_elem_of_singleton.
    destruct (decide (k' = k)) as [->|Hne].
    + rewrite lookup_insert_eq. intros [= ->]. by right.
    + rewrite lookup_insert_ne by done. intros Hl. left. by apply IH.
Qed.

Lemma dict_of_pairs_is_Some {K V} `{Countable K} (l : list (K * V)) (k : K) :
  k ∈ l.*1 → is_Some (dict_of_pairs l !! k).
Proof.
  induction l as [|[k' v'] l IH] using rev_ind.
  - by intros ?%not_elem_of_nil.
  - rewrite fmap_app, elem_of_app, dict_of_pairs_snoc. simpl.
    destruct (decide (k' = k)) as [->|Hne].
    + intros _. by rewrite lookup_insert_eq.
    + rewrite lookup_insert_ne by done. rewrite list_elem_of_singleton.
      intros [Hk|Hk]; [by apply IH|by destruct Hne].
Qed.

Lemma zip_columns (df : list peak_row) :
  zip (zip (sf_id <$> df) (adduct <$> df)) (centr_ints <$> df)
  = (λ r, (sf_adduct r, centr_ints r)) <$> df.
Proof. induction df as [|r df IH]; csimpl; [done|]. by rewrite IH. Qed.

(** X18: on an object that holds a table, [get_sf_peak_ints] returns a
    dict and leaves the object as it is, whatever the database holds: the
    keys are the [(sf_id, adduct)] pairs of the table, and every entry maps
    the pair of some row to that row's intensities.  When no pair occurs
    twice in the table, the dict has exactly one entry per row, each row's
    pair mapped to that row's own intensities. *)
Theorem get_sf_peak_ints_lookup (db : PeaksDB) (self : t) (df : list peak_row) :
  _sf_df self = Some df →
  ∃ ints, get_sf_peak_ints db self = (Ok ints, self)
    ∧ (∀ k v, ints !! k = Some v → ∃ r, r ∈ df ∧ sf_adduct r = k ∧ centr_ints r = v)
    ∧ (∀ r, r ∈ df → is_Some (ints !! sf_adduct r))
    ∧ (NoDup (sf_adduct <$> df) →
       (∀ r, r ∈ df → ints !! sf_adduct r = Some (centr_ints r))
       ∧ size ints = length df).
Proof.
  intros Hc. unfold get_sf_peak_ints.
  rewrite !(sf_df_cached db self df Hc). rewrite zip_columns.
  eexists. split; [done|]. split; [|split].
  - intros k v Hkv. apply dict_of_pairs_elem in Hkv.
    apply list_elem_of_fmap in Hkv as (r & [= -> ->] & Hr). by exists r.
  - intros r Hr. apply dict_of_pairs_is_Some.
    rewrite <- list_fmap_compose. apply list_elem_of_fmap. by exists r.
  - intros Hnd.
    assert (NoDup ((λ r, (sf_adduct r, centr_ints r)) <$> df).*1) as Hnd'
      by (by rewrite <- list_fmap_compose).
    split.
    + intros r Hr. apply dict_of_pairs_lookup; [done|].
      apply list_elem_of_fmap. by exists r.
    + rewrite dict_of_pairs_size by done. by rewrite length_fmap.
Qed.

Lemma get_sf_peak_ints_lookup_witness :
  ∃ ints,
    get_sf_peak_ints Examples.db_no_target
      (mkMolDB Examples.iso_conf 7 (Some 3) (Some Examples.df_dup))
    = (Ok ints, mkMolDB Examples.iso_conf 7 (Some 3) (Some Examples.df_dup))
    ∧ is_Some (ints !! (2, "+He"%string)).
Proof.
  destruct (get_sf_peak_ints_lookup Examples.db_no_target
              (mkMolDB Examples.iso_conf 7 (Some 3) (Some Examples.df_dup))
              Examples.df_dup eq_refl) as (ints & Hget & _ & Hkeys & _).
  exists ints. split; [exact Hget|].
  apply (Hkeys (Examples.row 2 "+He")).
  unfold Examples.df_dup. by repeat constructor.
Defined.

(** X19: [sf_peak_gen] yields one row per centroid: [(sf_id, adduct, i, mz)]
    is yielded exactly when some row of the table has that formula and
    adduct and [mz] as the [i]-th of its centroids, so a formula without
    centroids yields nothing, and the number of rows is the total number of
    centroids. *)
Theorem sf_peak_gen_rows (df : list peak_row) :
  (∀ i a pi mz,
     (i, a, pi, mz) ∈ sf_peak_gen df
     ↔ ∃ r, r ∈ df ∧ sf_id r = i ∧ adduct r = a ∧ centr_mzs r !! pi = Some mz)
  ∧ length (sf_peak_gen df) = sum_list ((λ r, length (centr_mzs r)) <$> df).
Proof.
  unfold sf_peak_gen. split.
  - intros i a pi mz. induction df as [|r df IH]; simpl.
    + split; [intros Hin; by apply not_elem_of_nil in Hin|].
      intros (r & Hr & _). by apply not_elem_of_nil in Hr.
    + rewrite elem_of_app, IH, elem_of_lookup_imap. split.
      * intros [(pi' & mz' & [= -> -> -> ->] & Hl) | (r' & Hr' & Hrest)].
        -- exists r. split; [left|done].
        -- exists r'. split; [by right|done].
      * intros (r' & Hr' & Hi & Ha & Hl). apply elem_of_cons in Hr' as [-> | Hr'].
        -- left. exists pi, mz. by rewrite Hi, Ha.
        -- right. by exists r'.
  - induction df as [|r df IH]; csimpl; [done|].
    by rewrite length_app, length_imap, IH.
Qed.

End peak_views.

(** ** The optical images of a dataset *)

Section optical_facts.
Import OpticalImage.
Context {image bytes : Type}.
Variable get_image_by_id : string → result image.
Variable warp : image → pyval → Z * Z → Z → result image.
Variable save_jpeg : image → result bytes.
Variable new_image_id : list (img_call bytes) → bytes → string.

Implicit Types (s : store bytes) (ds : Dataset).

Lemma delete_each_run (kind : string) (ids : list string) s :
  omap_each (img_delete kind) ids s
  = (Ok ((λ _, tt) <$> ids),
     mkStore (dataset_optical s) (optical_image s)
             (reverse (delete_image_by_id "fs" kind <$> ids) ++ img_store_calls s)
             (info_log s)).
Proof.
  revert s. induction ids as [|i ids IH]; intros s.
  - by destruct s.
  - simpl. unfold obind at 1. unfold img_delete at 1.
    unfold obind at 1. rewrite IH. unfold obind, oret. cbn [img_store_calls
      dataset_optical optical_image info_log].
    rewrite reverse_cons, <- app_assoc. done.
Qed.

Lemma filter_of_dataset_removed ds (rows : list (string * option string * Z)) :
  filter (of_dataset ds) (filter (λ row, ¬ of_dataset ds row) rows) = [].
Proof.
  induction rows as [|row rows IH]; [done|].
  rewrite filter_cons. destruct (decide (¬ of_dataset ds row)) as [Hn|Hn].
  - by rewrite filter_cons_False.
  - done.
Qed.

Lemma filter_not_of_dataset_idemp ds (rows : list (string * option string * Z)) :
  filter (λ row, ¬ of_dataset ds row) (filter (λ row, ¬ of_dataset ds row) rows)
  = filter (λ row, ¬ of_dataset ds row) rows.
Proof.
  induction rows as [|row rows IH]; [done|].
  rewrite filter_cons. destruct (decide (¬ of_dataset ds row)) as [Hn|Hn]; [|done].
  rewrite filter_cons_True by done. by rewrite IH.
Qed.

(** The store after [del_optical_image]. *)
Lemma del_optical_image_run ds s :
  del_optical_image ds s
  = (Ok tt,
     mkStore
       (match id ds with
        | Some i => if bool_decide (is_Some (dataset_optical s !! i))
                    then <[i := (None, None)]> (dataset_optical s)
                    else dataset_optical s
        | None => dataset_optical s
        end)
       (filter (λ row, ¬ of_dataset ds row) (optical_image s))
       (reverse (delete_image_by_id "fs" "optical_image" <$> select_optical_image s ds)
        ++ match select_raw_optical_image s ds with
           | Some raw => if str_truthy raw
                         then delete_image_by_id "fs" "raw_optical_image" (default "" raw)
                              :: img_store_calls s
                         else img_store_calls s
           | None => img_store_calls s
           end)
       ("Deleting optical image to '%s' dataset"%string :: info_log s)).
Proof.
  unfold del_optical_image. unfold obind at 1. unfold logger_info at 1.
  unfold obind at 1. unfold get_store at 1.
  unfold obind at 1.
  replace (select_raw_optical_image
             (mkStore (dataset_optical s) (optical_image s) (img_store_calls s)
                ("Deleting optical image to '%s' dataset"%string :: info_log s)) ds)
    with (select_raw_optical_image s ds) by reflexivity.
  replace (select_optical_image
             (mkStore (dataset_optical s) (optical_image s) (img_store_calls s)
                ("Deleting optical image to '%s' dataset"%string :: info_log s)) ds)
    with (select_optical_image s ds) by reflexivity.
  destruct (select_raw_optical_image s ds) as [raw|]; [destruct (str_truthy raw)|];
    simpl; unfold obind at 1; rewrite delete_each_run; reflexivity.
Qed.

(** X20: [del_optical_image] always returns; afterwards the dataset has no
    tile row and its raw image and transform are cleared, the store was
    asked to delete the raw image (when there was one) and every tile of
    the dataset, and the rows of the other datasets are as they were. *)
Theorem del_optical_image_clears ds s :
  let r := del_optical_image ds s in
  r.1 = Ok tt
  ∧ select_optical_image r.2 ds = []
  ∧ (∀ i, id ds = Some i → is_Some (dataset_optical s !! i) →
          dataset_optical r.2 !! i = Some (None, None))
  ∧ (∀ j, id ds ≠ Some j → dataset_optical r.2 !! j = dataset_optical s !! j)
  ∧ (∀ row, ¬ of_dataset ds row → row ∈ optical_image r.2 ↔ row ∈ optical_image s)
  ∧ (∀ tile, tile ∈ select_optical_image s ds →
             delete_image_by_id "fs" "optical_image" tile ∈ img_store_calls r.2)
  ∧ (∀ raw, select_raw_optical_image s ds = Some (Some raw) → raw ≠ "" →
            delete_image_by_id "fs" "raw_optical_image" raw ∈ img_store_calls r.2).
Proof.
  simpl. rewrite del_optical_image_run. simpl.
  split; [done|]. split; [|split; [|split; [|split; [|split]]]].
  - unfold select_optical_image. simpl. by rewrite filter_of_dataset_removed.
  - intros i Hi Hrow. rewrite Hi. rewrite bool_decide_eq_true_2 by done.
    by rewrite lookup_insert_eq.
  - intros j Hj. destruct (id ds) as [i|]; [|done].
    destruct (bool_decide (is_Some (dataset_optical s !! i))); [|done].
    rewrite lookup_insert_ne; [done|]. congruence.
  - intros row Hrow. rewrite list_elem_of_filter. split; [by intros [_ ?]|done].
  - intros tile Htile. apply elem_of_app. left. apply elem_of_reverse.
    apply list_elem_of_fmap. by exists tile.
  - intros raw Hraw Hne. rewrite Hraw. simpl.
    rewrite bool_decide_eq_false_2 by done. simpl.
    apply elem_of_app. right. left.
Qed.

(** X21: deleting the optical images of a dataset a second time is not an
    error and does nothing: no call on the image store, no change of the
    tables. *)
Theorem del_optical_image_twice ds s :
  let s1 := (del_optical_image ds s).2 in
  let r2 := del_optical_image ds s1 in
  r2.1 = Ok tt
  ∧ img_store_calls r2.2 = img_store_calls s1
  ∧ dataset_optical r2.2 = dataset_optical s1
  ∧ optical_image r2.2 = optical_image s1.
Proof.
  simpl. rewrite (del_optical_image_run ds (del_optical_image ds s).2).
  rewrite (del_optical_image_run ds s). simpl.
  split; [done|].
  assert (select_optical_image
            (mkStore
               (match id ds with
                | Some i => if bool_decide (is_Some (dataset_optical s !! i))
                            then <[i := (None, None)]> (dataset_optical s)
                            else dataset_optical s
                | None => dataset_optical s
                end)
               (filter (λ row, ¬ of_dataset ds row) (optical_image s))
               (reverse (delete_image_by_id "fs" "optical_image"
                           <$> select_optical_image s ds)
                ++ match select_raw_optical_image s ds with
                   | Some raw =>
                       if str_truthy raw
                       then delete_image_by_id "fs" "raw_optical_image" (default "" raw)
                            :: img_store_calls s
                       else img_store_calls s
                   | None => img_store_calls s
                   end)
               ("Deleting optical image to '%s' dataset"%string :: info_log s)) ds = [])
    as ->.
  { unfold select_optical_image. simpl. by rewrite filter_of_dataset_removed. }
  unfold select_raw_optical_image. simpl.
  split; [|split].
  - destruct (id ds) as [i|]; simpl; [|done].
    destruct (decide (is_Some (dataset_optical s !! i))) as [Hrow|Hrow].
    + rewrite (bool_decide_eq_true_2 _ Hrow). by rewrite lookup_insert_eq.
    + rewrite (bool_decide_eq_false_2 _ Hrow).
      destruct (dataset_optical s !! i) as [row|] eqn:Hi; [|done].
      destruct Hrow. by eexists.
  - destruct (id ds) as [i|]; [|done].
    destruct (decide (is_Some (dataset_optical s !! i))) as [Hrow|Hrow].
    + rewrite !(bool_decide_eq_true_2 _ Hrow).
      rewrite bool_decide_eq_true_2 by (rewrite lookup_insert_eq; by eexists).
      by rewrite insert_insert_eq.
    + by rewrite !(bool_decide_eq_false_2 _ Hrow).
  - apply filter_not_of_dataset_idemp.
Qed.

(** The store after [_add_raw_optical_image]. *)
Lemma add_raw_optical_image_run ds (img_id : string) (transform : pyval) s :
  _add_raw_optical_image ds img_id transform s
  = (Ok tt,
     mkStore
       (match id ds with
        | Some i => if bool_decide (is_Some (dataset_optical s !! i))
                    then <[i := (Some img_id, Some transform)]> (dataset_optical s)
                    else dataset_optical s
        | None => dataset_optical s
        end)
       (optical_image s)
       (match select_raw_optical_image s ds with
        | Some old => if str_truthy old && bool_decide (old ≠ Some img_id)
                      then delete_image_by_id "fs" "raw_optical_image" (default "" old)
                           :: img_store_calls s
                      else img_store_calls s
        | None => img_store_calls s
        end)
       (info_log s)).
Proof.
  unfold _add_raw_optical_image, obind, get_store.
  destruct (select_raw_optical_image s ds) as [old|];
    [destruct (str_truthy old && bool_decide (old ≠ Some img_id))|];
    simpl; by destruct s.
Qed.

Lemma raw_image_replaced_iff (old img_id : string) :
  str_truthy (Some old) && bool_decide (Some old ≠ Some img_id)
  = bool_decide (old ≠ "" ∧ old ≠ img_id).
Proof.
  unfold str_truthy. rewrite bool_decide_and, !bool_decide_not. f_equal. f_equal.
  apply bool_decide_ext. split; [by intros [= ->]|by intros ->].
Qed.

Lemma add_raw_optical_image_row ds (img_id : string) (transform : pyval) s :
  optical_image (_add_raw_optical_image ds img_id transform s).2 = optical_image s
  ∧ ∀ i, id ds = Some i → is_Some (dataset_optical s !! i) →
         dataset_optical (_add_raw_optical_image ds img_id transform s).2 !! i
         = Some (Some img_id, Some transform).
Proof.
  rewrite add_raw_optical_image_run. simpl. split; [done|].
  intros i Hi Hrow. rewrite Hi, (bool_decide_eq_true_2 _ Hrow).
  by rewrite lookup_insert_eq.
Qed.

(** X22: [_add_raw_optical_image] records the new raw image and the
    transform on the dataset's row and asks the store to delete the old raw
    image exactly when there was one with a different id; registering the
    same id again deletes nothing.  For a dataset without a row it records
    nothing and raises nothing. *)
Theorem add_raw_optical_image_replaces ds (img_id : string) (transform : pyval) s :
  let r := _add_raw_optical_image ds img_id transform s in
  r.1 = Ok tt
  ∧ optical_image r.2 = optical_image s
  ∧ (∀ i, id ds = Some i → is_Some (dataset_optical s !! i) →
          dataset_optical r.2 !! i = Some (Some img_id, Some transform))
  ∧ (∀ j, id ds ≠ Some j → dataset_optical r.2 !! j = dataset_optical s !! j)
  ∧ (select_raw_optical_image s ds = None →
     dataset_optical r.2 = dataset_optical s ∧ img_store_calls r.2 = img_store_calls s)
  ∧ (∀ old, select_raw_optical_image s ds = Some (Some old) →
       img_store_calls r.2
       = if bool_decide (old ≠ "" ∧ old ≠ img_id)
         then delete_image_by_id "fs" "raw_optical_image" old :: img_store_calls s
         else img_store_calls s)
  ∧ (select_raw_optical_image s ds = Some None →
     img_store_calls r.2 = img_store_calls s).
Proof.
  simpl. rewrite add_raw_optical_image_run. simpl.
  split; [done|]. split; [done|]. split; [|split; [|split; [|split]]].
  - intros i Hi Hrow. rewrite Hi, (bool_decide_eq_true_2 _ Hrow).
    by rewrite lookup_insert_eq.
  - intros j Hj. destruct (id ds) as [i|]; [|done].
    destruct (bool_decide (is_Some (dataset_optical s !! i))); [|done].
    rewrite lookup_insert_ne; [done|]. congruence.
  - intros Hnone. rewrite Hnone. split; [|done].
    unfold select_raw_optical_image in Hnone.
    destruct (id ds) as [i|]; [|done]. simpl in Hnone.
    destruct (dataset_optical s !! i) as [row|] eqn:Hi; [done|].
    rewrite bool_decide_eq_false_2; [done|]. by intros [? ?].
  - intros old Hold. rewrite Hold.
    by rewrite raw_image_replaced_iff.
  - intros Hnone. by rewrite Hnone.
Qed.

Lemma omap_each_cons {A B} (f : A → O (bytes:=bytes) B) (x : A) (l : list A) s :
  omap_each f (x :: l) s
  = match f x s with
    | (Ok y, s1) =>
        match omap_each f l s1 with
        | (Ok ys, s2) => (Ok (y :: ys), s2)
        | (Raise e, s2) => (Raise e, s2)
        end
    | (Raise e, s1) => (Raise e, s1)
    end.
Proof. reflexivity. Qed.

(** A loop of store operations that only post tiles leaves the tables
    alone and adds nothing but posts to the calls, whether it ends or
    raises. *)
Lemma omap_each_posts_only {A B} (f : A → O (bytes:=bytes) B) (l : list A) :
  (∀ x s, dataset_optical (f x s).2 = dataset_optical s
          ∧ optical_image (f x s).2 = optical_image s
          ∧ ∃ c, img_store_calls (f x s).2 = c ++ img_store_calls s
               ∧ Forall (λ call, ∃ buf i, call = post_image "fs" "optical_image" buf i) c) →
  ∀ s, dataset_optical (omap_each f l s).2 = dataset_optical s
       ∧ optical_image (omap_each f l s).2 = optical_image s
       ∧ ∃ c, img_store_calls (omap_each f l s).2 = c ++ img_store_calls s
            ∧ Forall (λ call, ∃ buf i, call = post_image "fs" "optical_image" buf i) c.
Proof.
  intros Hf. induction l as [|x l IH]; intros s.
  - simpl. split; [done|]. split; [done|]. by exists [].
  - rewrite omap_each_cons.
    destruct (Hf x s) as (Hd & Ho & c1 & Hc1 & Hp1).
    destruct (f x s) as [[y|e] s1]; simpl in *.
    + destruct (IH s1) as (Hd2 & Ho2 & c2 & Hc2 & Hp2).
      destruct (omap_each f l s1) as [[ys|e] s2]; simpl in *.
      * split; [by rewrite Hd2|]. split; [by rewrite Ho2|].
        exists (c2 ++ c1). split; [by rewrite Hc2, Hc1, app_assoc|].
        by apply Forall_app.
      * split; [by rewrite Hd2|]. split; [by rewrite Ho2|].
        exists (c2 ++ c1). split; [by rewrite Hc2, Hc1, app_assoc|].
        by apply Forall_app.
    + split; [done|]. split; [done|]. by exists c1.
Qed.

(** One tile: the request is resampled for its zoom level, encoded and
    posted. *)
Lemma tile_step_posts_only (scan : image) (transform : pyval) (dims : Z * Z) ds
    (zoom : Z) s :
  let f := λ zoom : Z,
    obind (olift (_transform_scan warp scan transform dims zoom)) (λ img,
    obind (olift (save_jpeg img)) (λ buf,
    obind (img_post new_image_id "optical_image" buf) (λ scaled_img_id,
    oret (scaled_img_id, id ds, zoom)))) in
  dataset_optical (f zoom s).2 = dataset_optical s
  ∧ optical_image (f zoom s).2 = optical_image s
  ∧ ∃ c, img_store_calls (f zoom s).2 = c ++ img_store_calls s
       ∧ Forall (λ call, ∃ buf i, call = post_image "fs" "optical_image" buf i) c.
Proof.
  simpl. unfold obind, olift, img_post, oret.
  destruct (_transform_scan warp scan transform dims zoom) as [img|e];
    [|split; [done|]; split; [done|]; by exists []].
  destruct (save_jpeg img) as [buf|e];
    [|split; [done|]; split; [done|]; by exists []].
  simpl. split; [done|]. split; [done|].
  eexists [_]. split; [reflexivity|]. constructor; [|done]. by eexists _, _.
Qed.

(** The step of the loop of [_add_zoom_optical_images]. *)
Local Abbreviation tile_of scan transform dims ds :=
  (λ zoom : Z,
     obind (olift (_transform_scan warp scan transform dims zoom)) (λ img,
     obind (olift (save_jpeg img)) (λ buf,
     obind (img_post new_image_id "optical_image" buf) (λ scaled_img_id,
     oret (scaled_img_id, id ds, zoom))))).

Lemma add_zoom_optical_images_run (shape : result (Z * Z)) ds (img_id : string)
    (transform : pyval) (zoom_levels : list Z) s :
  _add_zoom_optical_images get_image_by_id warp save_jpeg new_image_id
    shape ds img_id transform zoom_levels s
  = match shape with
    | Raise e => (Raise e, s)
    | Ok dims =>
        match get_image_by_id img_id with
        | Raise e => (Raise e, s)
        | Ok scan =>
            match omap_each (tile_of scan transform dims ds) zoom_levels s with
            | (Raise e, s1) => (Raise e, s1)
            | (Ok rows, s1) =>
                (Ok tt,
                 mkStore (dataset_optical s1)
                         (filter (λ row, ¬ of_dataset ds row) (optical_image s1) ++ rows)
                         (reverse (delete_image_by_id "fs" "optical_image"
                                     <$> select_optical_image s1 ds)
                          ++ img_store_calls s1)
                         (info_log s1))
            end
        end
    end.
Proof.
  unfold _add_zoom_optical_images. unfold obind at 1, olift at 1.
  destruct shape as [dims|e]; [|done].
  unfold obind at 1, olift at 1.
  destruct (get_image_by_id img_id) as [scan|e]; [|done].
  unfold obind at 1.
  destruct (omap_each _ zoom_levels s) as [[rows|e] s1]; [|done].
  unfold obind at 1, get_store at 1. unfold obind at 1.
  rewrite delete_each_run. reflexivity.
Qed.

Lemma add_optical_image_run (shape : result (Z * Z)) ds (img_id : string)
    (transform : pyval) (zoom_levels : list Z) s :
  add_optical_image get_image_by_id warp save_jpeg new_image_id
    shape ds img_id transform zoom_levels s
  = _add_zoom_optical_images get_image_by_id warp save_jpeg new_image_id
      shape ds img_id transform zoom_levels
      (_add_raw_optical_image ds img_id transform
         (mkStore (dataset_optical s) (optical_image s) (img_store_calls s)
                  ("Adding optical image to '%s' dataset"%string :: info_log s))).2.
Proof.
  unfold add_optical_image. unfold obind at 1, logger_info at 1.
  unfold obind at 1. by rewrite add_raw_optical_image_run.
Qed.

(** X23: when [add_optical_image] raises (the shape of the annotation
    images cannot be found, the raw image cannot be fetched, a zoom level
    cannot be resampled or encoded), the tile rows of every dataset are as
    they were and the store was not asked to delete any tile, neither an
    old one nor one posted before the failure; but the raw image and the
    transform of the dataset have already been replaced. *)
Theorem add_optical_image_failure (shape : result (Z * Z)) ds (img_id : string)
    (transform : pyval) (zoom_levels : list Z) s (e : exn) :
  let r := add_optical_image get_image_by_id warp save_jpeg new_image_id
             shape ds img_id transform zoom_levels s in
  r.1 = Raise e →
  optical_image r.2 = optical_image s
  ∧ dataset_optical r.2 = dataset_optical (_add_raw_optical_image ds img_id transform s).2
  ∧ (∀ i, id ds = Some i → is_Some (dataset_optical s !! i) →
          dataset_optical r.2 !! i = Some (Some img_id, Some transform))
  ∧ ∀ tile, delete_image_by_id "fs" "optical_image" tile ∈ img_store_calls r.2 →
            delete_image_by_id "fs" "optical_image" tile ∈ img_store_calls s.
Proof.
  simpl. rewrite add_optical_image_run.
  set (s0 := mkStore (dataset_optical s) (optical_image s) (img_store_calls s)
               ("Adding optical image to '%s' dataset"%string :: info_log s)).
  assert (dataset_optical (_add_raw_optical_image ds img_id transform s0).2
          = dataset_optical (_add_raw_optical_image ds img_id transform s).2) as Hsame
    by (by rewrite !add_raw_optical_image_run).
  destruct (add_raw_optical_image_row ds img_id transform s0) as (Ho & Hset).
  assert (∀ tile,
            delete_image_by_id "fs" "optical_image" tile
              ∈ img_store_calls (_add_raw_optical_image ds img_id transform s0).2 →
            delete_image_by_id "fs" "optical_image" tile ∈ img_store_calls s) as Hraw.
  { intros tile. rewrite add_raw_optical_image_run. simpl.
    replace (select_raw_optical_image s0 ds) with (select_raw_optical_image s ds)
      by reflexivity.
    destruct (select_raw_optical_image s ds) as [old|]; [|done].
    destruct (str_truthy old && bool_decide (old ≠ Some img_id)); [|done].
    intros Hin. apply elem_of_cons in Hin as [Heq|Hin]; [discriminate Heq|done]. }
  simpl in Ho, Hset.
  set (s1 := (_add_raw_optical_image ds img_id transform s0).2) in *.
  rewrite add_zoom_optical_images_run.
  destruct shape as [dims|e0]; [|simpl; intros _; by auto].
  destruct (get_image_by_id img_id) as [scan|e0]; [|simpl; intros _; by auto].
  destruct (omap_each_posts_only (tile_of scan transform dims ds) zoom_levels
              (λ z s', tile_step_posts_only scan transform dims ds z s') s1)
    as (Hd & Hoi & c & Hc & Hposts).
  destruct (omap_each (tile_of scan transform dims ds) zoom_levels s1)
    as [[rows|e0] s2]; [simpl; discriminate|].
  simpl in *. intros _.
  split; [by rewrite Hoi|]. split; [by rewrite Hd|]. split.
  - intros i Hi Hrow. rewrite Hd. by apply Hset.
  - intros tile Hin. apply Hraw. rewrite Hc in Hin.
    apply elem_of_app in Hin as [Hin|Hin]; [|done].
    rewrite Forall_forall in Hposts. destruct (Hposts _ Hin) as (buf & i & Heq).
    discriminate Heq.
Qed.

(** The loop when every zoom level can be resampled and encoded: a row per
    zoom level, in order, each with the id of a tile that was posted. *)
Lemma annotation_image_shape_raises (rows : list (option (list (option string)))) ds :
  ∃ e, _annotation_image_shape rows ds = Raise e
       ∧ (e = AttributeError ∨ e = IndexError ∨ e = TypeError)
       ∧ (∀ i ids rest, rows = Some (i :: ids) :: rest → e = AttributeError).
Proof.
  unfold _annotation_image_shape.
  destruct rows as [|[[|i ids]|] rest]; simpl.
  - exists IndexError. split; [done|]. split; [by right; left|done].
  - exists IndexError. split; [done|]. split; [by right; left|done].
  - exists AttributeError. split; [done|]. split; [by left|done].
  - exists TypeError. split; [done|]. split; [by right; right|done].
Qed.

(** X24: with the class [Dataset] as it is, [add_optical_image] never
    returns.  [_annotation_image_shape] looks up
    [get_ion_img_storage_type] on the dataset, which the class does not
    define: the call raises AttributeError (IndexError or TypeError when
    the query for the annotation images gives no id to begin with), after
    the raw image and the transform of the dataset were replaced.  No
    tile is rendered or posted, and the tile rows are as they were. *)
Theorem add_optical_image_never_returns (rows : list (option (list (option string))))
    ds (img_id : string) (transform : pyval) (zoom_levels : list Z) s :
  let r := add_optical_image get_image_by_id warp save_jpeg new_image_id
             (_annotation_image_shape rows ds) ds img_id transform zoom_levels s in
  (∃ e, r.1 = Raise e
        ∧ (e = AttributeError ∨ e = IndexError ∨ e = TypeError)
        ∧ (∀ i ids rest, rows = Some (i :: ids) :: rest → e = AttributeError))
  ∧ optical_image r.2 = optical_image s
  ∧ (∀ i, id ds = Some i → is_Some (dataset_optical s !! i) →
          dataset_optical r.2 !! i = Some (Some img_id, Some transform))
  ∧ (∀ kind buf i, post_image "fs" kind buf i ∈ img_store_calls r.2 →
                   post_image "fs" kind buf i ∈ img_store_calls s).
Proof.
  simpl. rewrite add_optical_image_run, add_zoom_optical_images_run.
  destruct (annotation_image_shape_raises rows ds) as (e & -> & He & Hattr).
  set (s0 := mkStore (dataset_optical s) (optical_image s) (img_store_calls s)
               ("Adding optical image to '%s' dataset"%string :: info_log s)).
  destruct (add_raw_optical_image_row ds img_id transform s0) as (Ho & Hset).
  simpl. split; [by exists e|]. split; [exact Ho|]. split; [exact Hset|].
  intros kind buf i. rewrite add_raw_optical_image_run. simpl.
  replace (select_raw_optical_image s0 ds) with (select_raw_optical_image s ds)
    by reflexivity.
  destruct (select_raw_optical_image s ds) as [old|]; [|done].
  destruct (str_truthy old && bool_decide (old ≠ Some img_id)); [|done].
  intros Hin. apply elem_of_cons in Hin as [Heq|Hin]; [discriminate Heq|done].
Qed.

End optical_facts.

Lemma add_optical_image_failure_witness :
  let store_0 : OpticalImage.store unit :=
    OpticalImage.mkStore (<["ds1" := (Some "raw0", None)]> ∅)
                         [("t0", Some "ds1", 1)] [] [] in
  let r := OpticalImage.add_optical_image (image:=unit)
             (λ _, Ok tt) (λ _ _ _ _, Ok tt) (λ _, Ok tt) (λ _ _, "t1")
             (OpticalImage._annotation_image_shape [Some [Some "iso1"]] Examples.ds_1)
             Examples.ds_1 "raw1" VNone [1; 2] store_0 in
  r.1 = Raise AttributeError
  ∧ OpticalImage.optical_image r.2 = [("t0", Some "ds1", 1)].
Proof.
  split; [reflexivity|].
  exact (proj1 (@add_optical_image_failure unit unit
                  (λ _, Ok tt) (λ _ _ _ _, Ok tt) (λ _, Ok tt) (λ _ _, "t1"%string)
                  (OpticalImage._annotation_image_shape [Some [Some "iso1"%string]]
                     Examples.ds_1)
                  Examples.ds_1 "raw1" VNone [1; 2]
                  (OpticalImage.mkStore (<["ds1" := (Some "raw0"%string, None)]> ∅)
                                        [("t0"%string, Some "ds1"%string, 1)] [] [])
                  AttributeError eq_refl)).
Defined.
